(** * web_scraping.py: the books.toscrape.com scraper

    A shallow embedding of [src/web_scraping.py] and the properties of its
    two stages: the listing enumerator [collect_book_urls] and the detail
    extractor [parse_book_page].

    Conventions of the embedding.
    - A Python [str] is a [str]: a sequence of code points.  What the
      interpreter reads from its Unicode tables, the decimal digits and the
      whitespace beyond ASCII, comes from a [Unicode] table, and every
      property holds whatever the table says.
    - A Python [int] is a [Z].  A Python [float] is kept as the exact
      rational it denotes, in lowest terms ([Qred]); the rounding to
      binary64 that [float()] performs (to infinity, for a literal too
      large) is a fixed function of that rational and is not modelled.
    - A Python [dict] is a [gmap]; the [book] dictionary, whose fourteen keys
      are fixed, is a record.
    - A raised exception is the [Raise] outcome of [result].
    - The network is a [World]: the answers it will give, and the log of the
      requests made so far.
    - The progress bars and the printing are left out: no function returns
      anything that depends on them. *)

From Stdlib Require Import ZArith QArith Ascii String DecimalString.
From Stdlib.Strings Require Import Byte.
From stdpp Require Import base option list countable gmap.

Local Open Scope Z_scope.

(** ** Exceptions *)

Inductive exn := AttributeError | KeyError | ValueError.

Inductive result (A : Type) :=
| Ok (a : A)
| Raise (e : exn).
Arguments Ok {A} a.
Arguments Raise {A} e.

#[global] Instance result_ret : MRet result := fun _ a => Ok a.

#[global] Instance result_bind : MBind result := fun _ _ f r =>
  match r with
  | Ok a => f a
  | Raise e => Raise e
  end.

(** [o.attr] on the outcome [o] of a [find]: [None] has no attributes. *)
Definition deref {A} (o : option A) : result A :=
  match o with
  | Some a => Ok a
  | None => Raise AttributeError
  end.

(** ** Characters and strings *)

(** A character is its code point. *)
Abbreviation char := N (only parsing).

Inductive str : Set :=
| SEmpty
| SChar (c : char) (s : str).

(** The literals: a literal of this file denotes the code points that its
    bytes encode in UTF-8. *)
Fixpoint decode_utf8 (l : list Byte.byte) : str :=
  match l with
  | [] => SEmpty
  | b0 :: r0 =>
      let n0 := Byte.to_N b0 in
      if (n0 <? 192)%N then SChar n0 (decode_utf8 r0)
      else
        match r0 with
        | [] => SChar n0 SEmpty
        | b1 :: r1 =>
            let n1 := (Byte.to_N b1 - 128)%N in
            if (n0 <? 224)%N
            then SChar ((n0 - 192) * 64 + n1)%N (decode_utf8 r1)
            else
              match r1 with
              | [] => SChar n0 SEmpty
              | b2 :: r2 =>
                  let n2 := (Byte.to_N b2 - 128)%N in
                  if (n0 <? 240)%N
                  then SChar (((n0 - 224) * 64 + n1) * 64 + n2)%N
                             (decode_utf8 r2)
                  else
                    match r2 with
                    | [] => SChar n0 SEmpty
                    | b3 :: r3 =>
                        let n3 := (Byte.to_N b3 - 128)%N in
                        SChar ((((n0 - 240) * 64 + n1) * 64 + n2) * 64 + n3)%N
                              (decode_utf8 r3)
                    end
              end
        end
  end.

Definition byte_of (n : N) : Byte.byte := default Byte.x00 (Byte.of_N n).

Definition encode_char (c : char) : list Byte.byte :=
  if (c <? 128)%N then [byte_of c]
  else if (c <? 2048)%N then [byte_of (192 + c / 64); byte_of (128 + c mod 64)]%N
  else if (c <? 65536)%N then
    [byte_of (224 + c / 4096); byte_of (128 + (c / 64) mod 64);
     byte_of (128 + c mod 64)]%N
  else
    [byte_of (240 + c / 262144); byte_of (128 + (c / 4096) mod 64);
     byte_of (128 + (c / 64) mod 64); byte_of (128 + c mod 64)]%N.

Fixpoint encode_utf8 (s : str) : list Byte.byte :=
  match s with
  | SEmpty => []
  | SChar c s' => encode_char c ++ encode_utf8 s'
  end.

Declare Scope str_scope.
Delimit Scope str_scope with str.
Bind Scope str_scope with str.
String Notation str decode_utf8 encode_utf8 : str_scope.
Open Scope str_scope.

(** The characters the code names. *)
Definition c_lparen : char := 40.      (* ( *)
Definition c_plus : char := 43.        (* + *)
Definition c_minus : char := 45.       (* - *)
Definition c_dot : char := 46.         (* . *)
Definition c_underscore : char := 95.  (* _ *)

(** ** The Unicode tables of the interpreter

    For the code points from 128 on: the value of a decimal digit (the
    characters of the category Nd, which [\d] matches and [int] and
    [float] read), and the whitespace (which [str.strip] removes and [int]
    and [float] skip).  The tables are those of the Unicode version the
    interpreter was built with; all that is used of them is that a digit
    has a value below ten and is not whitespace. *)
Class Unicode := {
  wide_decimal : char → option N;
  wide_space : char → bool;
  wide_decimal_lt : ∀ c v, wide_decimal c = Some v → (v < 10)%N;
  wide_decimal_no_space : ∀ c v, wide_decimal c = Some v → wide_space c = false
}.

Module Str.

Fixpoint length (s : str) : nat :=
  match s with
  | SEmpty => 0
  | SChar _ s' => S (length s')
  end.

(** [s + t] *)
Fixpoint app (s t : str) : str :=
  match s with
  | SEmpty => t
  | SChar c s' => SChar c (app s' t)
  end.

(** [s == t] *)
Fixpoint eqb (s t : str) : bool :=
  match s, t with
  | SEmpty, SEmpty => true
  | SChar a s', SChar b t' => (a =? b)%N && eqb s' t'
  | _, _ => false
  end.

Fixpoint to_list (s : str) : list N :=
  match s with
  | SEmpty => []
  | SChar c s' => c :: to_list s'
  end.

Fixpoint of_list (l : list N) : str :=
  match l with
  | [] => SEmpty
  | c :: l' => SChar c (of_list l')
  end.

(** The text of a string of the standard library, which is ASCII where
    this file uses it. *)
Fixpoint of_ascii (s : String.string) : str :=
  match s with
  | String.EmptyString => SEmpty
  | String.String a s' => SChar (N_of_ascii a) (of_ascii s')
  end.

Section Classes.
Context {U : Unicode}.

(** The value of a decimal digit: [0] to [9] below 128, the table above. *)
Definition decimal (c : char) : option N :=
  if (c <? 128)%N
  then (if (48 <=? c) && (c <=? 57) then Some (c - 48) else None)%N
  else wide_decimal c.

(** [\d] *)
Definition is_digit (c : char) : bool :=
  match decimal c with Some _ => true | None => false end.

Definition digit_val (c : char) : N := default 0%N (decimal c).

(** The characters [str.strip] removes: below 128 the tab, LF, VT, FF, CR,
    the separators 28..31 and the space; the table above. *)
Definition is_space (c : char) : bool :=
  if (c <? 128)%N
  then (((9 <=? c) && (c <=? 13)) || ((28 <=? c) && (c <=? 32)))%N
  else wide_space c.

End Classes.

Fixpoint all (p : char → bool) (s : str) : bool :=
  match s with
  | SEmpty => true
  | SChar c s' => p c && all p s'
  end.

Fixpoint any (p : char → bool) (s : str) : bool :=
  match s with
  | SEmpty => false
  | SChar c s' => p c || any p s'
  end.

Definition is_empty (s : str) : bool :=
  match s with SEmpty => true | SChar _ _ => false end.

Fixpoint take (n : nat) (s : str) : str :=
  match n, s with
  | S n', SChar c s' => SChar c (take n' s')
  | _, _ => SEmpty
  end.

(** [s.startswith(t)], and what follows [t] in [s] when it does. *)
Fixpoint strip_prefix (t s : str) : option str :=
  match t, s with
  | SEmpty, _ => Some s
  | SChar a t', SChar b s' =>
      if (a =? b)%N then strip_prefix t' s' else None
  | SChar _ _, SEmpty => None
  end.

(** [t in s] *)
Fixpoint contains (t s : str) : bool :=
  match strip_prefix t s with
  | Some _ => true
  | None =>
      match s with
      | SEmpty => false
      | SChar _ s' => contains t s'
      end
  end.

(** [s.replace(t, "")] for a non-empty [t]: the occurrences of [t] are
    removed from left to right, without overlap.  The fuel is the length
    of [s]; every step consumes a character. *)
Fixpoint remove_go (fuel : nat) (t s : str) : str :=
  match fuel with
  | O => s
  | S fuel' =>
      match strip_prefix t s with
      | Some rest => remove_go fuel' t rest
      | None =>
          match s with
          | SEmpty => SEmpty
          | SChar c s' => SChar c (remove_go fuel' t s')
          end
      end
  end.

Definition remove (t s : str) : str :=
  remove_go (length s) t s.

(** The leading characters of the class [p] removed. *)
Fixpoint lstrip_by (p : char → bool) (s : str) : str :=
  match s with
  | SEmpty => SEmpty
  | SChar c s' => if p c then lstrip_by p s' else s
  end.

(** The trailing characters of the class [p] removed. *)
Fixpoint rstrip_by (p : char → bool) (s : str) : str :=
  match s with
  | SEmpty => SEmpty
  | SChar c s' =>
      let r := rstrip_by p s' in
      if p c && is_empty r then SEmpty else SChar c r
  end.

Section Strip.
Context {U : Unicode}.

Definition lstrip (s : str) : str := lstrip_by is_space s.
Definition rstrip (s : str) : str := rstrip_by is_space s.

(** [s.strip()] *)
Definition strip (s : str) : str := rstrip (lstrip s).

(** The number a run of decimal digits denotes, most significant first. *)
Fixpoint digits_acc (acc : N) (s : str) : N :=
  match s with
  | SEmpty => acc
  | SChar c s' => digits_acc (10 * acc + digit_val c)%N s'
  end.

Definition digits (s : str) : N := digits_acc 0 s.

End Strip.

Fixpoint concat (l : list str) : str :=
  match l with
  | [] => SEmpty
  | s :: l' => app s (concat l')
  end.

(** [str(n)] and the [{n}] of an f-string, for an [int]. *)
Definition of_Z (n : Z) : str := of_ascii (NilZero.string_of_int (Z.to_int n)).

End Str.

Infix "+:+" := Str.app (at level 60, right associativity) : str_scope.

#[global] Instance str_eq_dec : EqDecision str.
Proof. solve_decision. Defined.

#[global] Instance str_countable : Countable str.
Proof.
  refine (inj_countable' Str.to_list Str.of_list _).
  intros s. induction s as [|c s IH]; simpl; [reflexivity | by rewrite IH].
Defined.

(** ** The builtins [int] and [float] *)

Module Py.

(** The default of [sys.int_max_str_digits]: [int] refuses a literal with
    more digits. *)
Definition max_str_digits : nat := 4300.

Section Builtins.
Context {U : Unicode}.

(** The whitespace [int] allows around a literal: below 128 the tab, LF,
    VT, FF, CR and the space; the table above. *)
Definition int_space (c : char) : bool :=
  if (c <? 128)%N
  then (((9 <=? c) && (c <=? 13)) || (c =? 32))%N
  else wide_space c.

(** The digits of an integer literal, where single underscores may
    separate digits: [after_digit] tells whether the previous character
    was a digit, the only place where an underscore or the end may come;
    [count] is the number of digits read. *)
Fixpoint int_digits (after_digit : bool) (acc : N) (count : nat) (s : str)
  : option (N * nat) :=
  match s with
  | SEmpty => if after_digit then Some (acc, count) else None
  | SChar c s' =>
      if Str.is_digit c
      then int_digits true (10 * acc + Str.digit_val c)%N (S count) s'
      else if (c =? c_underscore)%N && after_digit
           then int_digits false acc count s'
           else None
  end.

(** [int(s)] for a string: surrounding whitespace, an optional sign, and
    decimal digits, at most [max_str_digits] of them; [ValueError]
    otherwise. *)
Definition int (s : str) : result Z :=
  let t := Str.rstrip_by int_space (Str.lstrip_by int_space s) in
  let '(neg, body) :=
    match t with
    | SChar c r =>
        if (c =? c_minus)%N then (true, r)
        else if (c =? c_plus)%N then (false, r)
        else (false, t)
    | SEmpty => (false, t)
    end in
  match int_digits false 0 0 body with
  | Some (n, count) =>
      if (max_str_digits <? count)%nat then Raise ValueError
      else Ok (if neg : bool then - Z.of_N n else Z.of_N n)
  | None => Raise ValueError
  end.

(** What stands before and after the first ["."] of [s]; [None] when
    there is no ["."]. *)
Fixpoint split_dot (s : str) : option (str * str) :=
  match s with
  | SEmpty => None
  | SChar c s' =>
      if (c =? c_dot)%N then Some (SEmpty, s')
      else match split_dot s' with
           | Some (a, b) => Some (SChar c a, b)
           | None => None
           end
  end.

(** The value of the decimal literal with integer digits [a] and
    fractional digits [b]. *)
Definition decimal (a b : str) : Q :=
  Qred (Z.of_N (Str.digits (a +:+ b))
        # Z.to_pos (10 ^ Z.of_nat (Str.length b))).

(** [float(s)] on the strings [parse_price] passes to it, which hold
    digits and dots only ([search_price_chars] below): a literal is a
    run of digits with at most one dot among them and at least one digit.
    Signs, exponents, underscores, spaces and the words [inf] and [nan]
    need a character that such a string does not have. *)
Definition float (s : str) : result Q :=
  match split_dot s with
  | None =>
      if Str.all Str.is_digit s && negb (Str.is_empty s)
      then Ok (decimal s SEmpty) else Raise ValueError
  | Some (a, b) =>
      if Str.all Str.is_digit a && Str.all Str.is_digit b
         && negb (Str.is_empty (a +:+ b))
      then Ok (decimal a b) else Raise ValueError
  end.

End Builtins.

End Py.

(** A table for the examples: the Arabic-Indic digits
    (U+0660 to U+0669) and the whitespace of the standard. *)
Definition unicode_sample : Unicode.
Proof.
  refine {|
    wide_decimal := fun c =>
      if ((1632 <=? c) && (c <=? 1641))%N then Some (c - 1632)%N else None;
    wide_space := fun c =>
      bool_decide (c ∈ [133; 160; 5760; 8232; 8233; 8239; 8287; 12288]%N)
      || ((8192 <=? c) && (c <=? 8202))%N |}.
  - intros c v. destruct ((1632 <=? c) && (c <=? 1641))%N eqn:E; [|discriminate].
    intros [= <-]. apply andb_true_iff in E as [_ E%N.leb_le]. lia.
  - intros c v. destruct ((1632 <=? c) && (c <=? 1641))%N eqn:E; [|discriminate].
    intros _. apply andb_true_iff in E as [E1%N.leb_le E2%N.leb_le].
    apply orb_false_iff. split.
    + apply bool_decide_eq_false. rewrite !elem_of_cons, elem_of_nil. lia.
    + apply andb_false_iff. left. apply N.leb_gt. lia.
Defined.

(** ** The fragment of [re] the scraper uses

    A backtracking matcher in continuation-passing style, as Python's: the
    alternatives are tried in priority order, a greedy [+] tries one more
    iteration before it tries to go on, and [search] takes the leftmost
    position at which the pattern matches. *)

Module Re.

Inductive regex :=
| Eps                          (* the empty pattern *)
| Lit (c : char)              (* a literal character *)
| Cls (p : char → bool)       (* a character class *)
| Cat (r1 r2 : regex)          (* r1 r2 *)
| Plus (r : regex)             (* r+, greedy *)
| Grp (r : regex).             (* ( r ), capturing *)

(** A run of literal characters. *)
Fixpoint lits (t : str) : regex :=
  match t with
  | SEmpty => Eps
  | SChar c t' => Cat (Lit c) (lits t')
  end.

(** What [s] loses to become its suffix [rest]. *)
Definition consumed (s rest : str) : str :=
  Str.take (Str.length s - Str.length rest) s.

Section Matcher.
Context {R : Type}.

(** [rmatch r s caps k]: match [r] at the start of [s], then go on with
    [k] on what is left and on the groups closed so far; [None] when
    every alternative fails.  An iteration of [+] that consumes nothing
    is not repeated. *)
Fixpoint rmatch (r : regex) (s : str) (caps : list str)
    (k : str → list str → option R) : option R :=
  match r with
  | Eps => k s caps
  | Lit c =>
      match s with
      | SChar a s' => if (a =? c)%N then k s' caps else None
      | SEmpty => None
      end
  | Cls p =>
      match s with
      | SChar a s' => if p a then k s' caps else None
      | SEmpty => None
      end
  | Cat r1 r2 => rmatch r1 s caps (fun s1 c1 => rmatch r2 s1 c1 k)
  | Plus r1 =>
      (fix loop (fuel : nat) (s : str) (caps : list str) : option R :=
         match fuel with
         | O => None
         | S fuel' =>
             rmatch r1 s caps (fun s1 c1 =>
               let more :=
                 if (Str.length s1 <? Str.length s)%nat
                 then loop fuel' s1 c1 else None in
               match more with
               | Some x => Some x
               | None => k s1 c1
               end)
         end) (S (Str.length s)) s caps
  | Grp r1 =>
      rmatch r1 s caps (fun s1 c1 => k s1 (c1 ++ [consumed s s1]))
  end.
End Matcher.

(** A match object: [group()] and the captured groups, in order. *)
Record match_ := { group0 : str; groups : list str }.

Definition match_at (r : regex) (s : str) : option match_ :=
  rmatch r s [] (fun rest caps =>
    Some {| group0 := consumed s rest; groups := caps |}).

(** [re.search(r, s)] *)
Fixpoint search (r : regex) (s : str) : option match_ :=
  match match_at r s with
  | Some m => Some m
  | None =>
      match s with
      | SEmpty => None
      | SChar _ s' => search r s'
      end
  end.

(** [m.group(1)] of a pattern with one group, which every match closes. *)
Definition group1 (m : match_) : str := default SEmpty (head (groups m)).

End Re.

(** ** The document tree and the BeautifulSoup queries

    A page is a tree of tags and text.  A tag carries its name, the tokens
    of its [class] attribute (what [tag.get("class", [])] answers), its
    other attributes and its children.  Only the text that [get_text]
    collects is kept: comments and the like are not nodes. *)

#[warnings="-register-all"]
Inductive node :=
| Text (s : str)
| Elem (name : str) (classes : list str) (attrs : gmap str str)
       (children : list node).

Module Bs.

Definition name (n : node) : option str :=
  match n with Elem nm _ _ _ => Some nm | Text _ => None end.

Definition classes (n : node) : list str :=
  match n with Elem _ cl _ _ => cl | Text _ => [] end.

Definition attrs (n : node) : gmap str str :=
  match n with Elem _ _ at_ _ => at_ | Text _ => ∅ end.

(** What lies below [n], in document order, each node with the siblings
    that follow it. *)
Fixpoint descendants (n : node) : list (node * list node) :=
  match n with
  | Text _ => []
  | Elem _ _ _ cs =>
      (fix siblings (l : list node) : list (node * list node) :=
         match l with
         | [] => []
         | c :: rest => (c, rest) :: descendants c ++ siblings rest
         end) cs
  end.

(** The filters of [find] and [find_all]. *)
Definition tag_is (nm : str) (n : node) : bool :=
  bool_decide (name n = Some nm).

Definition tag_class (nm cl : str) (n : node) : bool :=
  tag_is nm n && bool_decide (cl ∈ classes n).

Definition tag_id (nm i : str) (n : node) : bool :=
  tag_is nm n && bool_decide (attrs n !! "id" = Some i).

(** [n.find_all(...)] *)
Definition find_all (p : node → bool) (n : node) : list node :=
  List.filter p (fst <$> descendants n).

(** [n.find(...)], with the following siblings of what it finds. *)
Definition find_loc (p : node → bool) (n : node) : option (node * list node) :=
  head (List.filter (fun d => p d.1) (descendants n)).

(** [n.find(...)] *)
Definition find (p : node → bool) (n : node) : option node :=
  fst <$> find_loc p n.

(** [t.find_next_sibling(nm)], from the siblings that follow [t]. *)
Definition find_next_sibling (nm : str) (following : list node) : option node :=
  head (List.filter (tag_is nm) following).

(** [t[key]] *)
Definition getitem (n : node) (key : str) : result str :=
  match attrs n !! key with
  | Some v => Ok v
  | None => Raise KeyError
  end.

Definition text_of (d : node * list node) : option str :=
  match d.1 with Text s => Some s | Elem _ _ _ _ => None end.

Section Text.
Context {U : Unicode}.

(** [n.get_text(strip=True)]: the pieces of text below [n], each one
    stripped, the empty ones dropped, joined without a separator. *)
Definition get_text (n : node) : str :=
  Str.concat (List.filter (fun s => negb (Str.is_empty s))
                (Str.strip <$> omap text_of (descendants n))).

End Text.

End Bs.

Section Scraper.
Context {U : Unicode}.

(** ** Settings *)

Definition BASE_URL : str := "https://books.toscrape.com/".
Definition CATALOGUE_URL : str := BASE_URL +:+ "catalogue/".
Definition NUM_CATALOGUE_PAGES : Z := 10.

Definition RATING_MAP : gmap str Z :=
  <["One" := 1]> (<["Two" := 2]> (<["Three" := 3]> (<["Four" := 4]>
    (<["Five" := 5]> ∅)))).

(** ** The network *)

(** [answers w k url]: what the [k]-th request of the run gets when it asks
    for [url]: a parsed page, or nothing after a transport error or a
    response that is not [ok]. *)
Record World := {
  answers : nat → str → option node;
  requests : list str
}.

Definition M (A : Type) : Type := World → result A * World.

#[global] Instance M_ret : MRet M := fun _ a w => (Ok a, w).

#[global] Instance M_bind : MBind M := fun _ _ f m w =>
  match m w with
  | (Ok a, w') => f a w'
  | (Raise e, w') => (Raise e, w')
  end.

Definition lift {A} (r : result A) : M A := fun w => (r, w).

(** [get_page]: both failures of the request are caught and answered with
    [None]; the page is handed to the parser otherwise. *)
Definition get_page (url : str) : M (option node) := fun w =>
  (Ok (answers w (length (requests w)) url),
   {| answers := answers w; requests := requests w ++ [url] |}).

(** [polite_sleep] waits; nothing the program reads afterwards depends
    on it. *)
Definition polite_sleep : M unit := mret ().

(** ** Step 1: the links of the catalogue pages *)

(** [range(a, b)] *)
Definition py_range (a b : Z) : list Z :=
  (fun i => a + Z.of_nat i) <$> seq 0 (Z.to_nat (b - a)).

(** The address of a catalogue page, with the branch of the source. *)
Definition page_url (page_num : Z) : str :=
  if page_num =? 1 then CATALOGUE_URL +:+ "page-1.html"
  else CATALOGUE_URL +:+ ("page-" +:+ Str.of_Z page_num +:+ ".html").

(** The loop over the [article] tags of one page. *)
Fixpoint articles_loop (articles : list node) (book_urls : list str)
  : result (list str) :=
  match articles with
  | [] => Ok book_urls
  | article :: rest =>
      h3 ← deref (Bs.find (Bs.tag_is "h3") article);
      match Bs.find (Bs.tag_is "a") h3 with
      | Some link_tag =>
          href ← Bs.getitem link_tag "href";
          let full_url := CATALOGUE_URL +:+ Str.remove "../" href in
          articles_loop rest (book_urls ++ [full_url])
      | None => articles_loop rest book_urls
      end
  end.

(** The loop over the page numbers. *)
Fixpoint pages_loop (pages : list Z) (book_urls : list str)
  : M (list str) :=
  match pages with
  | [] => mret book_urls
  | page_num :: rest =>
      soup ← get_page (page_url page_num);
      match soup with
      | None => pages_loop rest book_urls
      | Some soup =>
          let articles := Bs.find_all (Bs.tag_class "article" "product_pod") soup in
          book_urls' ← lift (articles_loop articles book_urls);
          _ ← polite_sleep;
          pages_loop rest book_urls'
      end
  end.

Definition collect_book_urls (num_pages : Z) : M (list str) :=
  pages_loop (py_range 1 (num_pages + 1)) [].

(** ** Step 2: the page of one book *)

Record book := {
  title : str;
  category : str;
  rating : Z;
  price : Q;
  price_excl_tax : Q;
  price_incl_tax : Q;
  tax : Q;
  availability : str;
  num_available : Z;
  num_reviews : Z;
  upc : str;
  product_type : str;
  description : str;
  book_url : str
}.

(** [r"[\d.]+"] *)
Definition re_price : Re.regex :=
  Re.Plus (Re.Cls (fun c => Str.is_digit c || (c =? c_dot)%N)).

(** [r"\((\d+) available\)"] *)
Definition re_avail : Re.regex :=
  Re.Cat (Re.Lit c_lparen)
    (Re.Cat (Re.Grp (Re.Plus (Re.Cls Str.is_digit))) (Re.lits " available)")).

Definition parse_price (raw : str) : result Q :=
  match Re.search re_price raw with
  | Some m => Py.float (Re.group0 m)
  | None => Ok 0%Q
  end.

(** The block of the title. *)
Definition parse_title (soup : node) : result str :=
  match Bs.find (Bs.tag_class "div" "product_main") soup with
  | Some title_tag =>
      h1 ← deref (Bs.find (Bs.tag_is "h1") title_tag);
      Ok (Bs.get_text h1)
  | None => Ok ""
  end.

(** The block of the category: [crumbs[2]] when [len(crumbs) > 2]. *)
Definition parse_category (soup : node) : str :=
  match Bs.find (Bs.tag_class "ul" "breadcrumb") soup with
  | Some breadcrumb =>
      let crumbs := Bs.find_all (Bs.tag_is "li") breadcrumb in
      match crumbs !! 2%nat with
      | Some crumb => Bs.get_text crumb
      | None => ""
      end
  | None => ""
  end.

(** The block of the rating. *)
Definition parse_rating (soup : node) : Z :=
  match Bs.find (Bs.tag_class "p" "star-rating") soup with
  | Some star_tag =>
      let rating_class :=
        List.filter (fun c => negb (Str.eqb c "star-rating"))
                    (Bs.classes star_tag) in
      match rating_class with
      | c :: _ => default 0 (RATING_MAP !! c)
      | [] => 0
      end
  | None => 0
  end.

(** The loop over the rows of the table: a later row with the same header
    overwrites the earlier one. *)
Fixpoint rows_loop (rows : list node) (info : gmap str str)
  : result (gmap str str) :=
  match rows with
  | [] => Ok info
  | row :: rest =>
      th ← deref (Bs.find (Bs.tag_is "th") row);
      let header := Bs.get_text th in
      td ← deref (Bs.find (Bs.tag_is "td") row);
      let value := Bs.get_text td in
      rows_loop rest (<[header := value]> info)
  end.

(** The block of the table of characteristics. *)
Definition parse_info (soup : node) : result (gmap str str) :=
  match Bs.find (Bs.tag_class "table" "table-striped") soup with
  | Some table => rows_loop (Bs.find_all (Bs.tag_is "tr") table) ∅
  | None => Ok ∅
  end.

(** The block of the description. *)
Definition parse_description (soup : node) : str :=
  match Bs.find (Bs.tag_class "article" "product_page") soup with
  | Some desc_tag =>
      match Bs.find_loc (Bs.tag_id "div" "product_description") desc_tag with
      | Some (p_tag, following) =>
          match Bs.find_next_sibling "p" following with
          | Some next_p => Bs.get_text next_p
          | None => ""
          end
      | None => ""
      end
  | None => ""
  end.

(** [parse_book_page] once the page is there, block after block in the
    order of the source. *)
Definition parse_soup (url : str) (soup : node) : result book :=
  title_ ← parse_title soup;
  let category_ := parse_category soup in
  let rating_ := parse_rating soup in
  info ← parse_info soup;
  let upc_ := default "" (info !! "UPC") in
  let product_type_ := default "" (info !! "Product Type") in
  price_excl_tax_ ← parse_price (default "0" (info !! "Price (excl. tax)"));
  price_incl_tax_ ← parse_price (default "0" (info !! "Price (incl. tax)"));
  tax_ ← parse_price (default "0" (info !! "Tax"));
  let price_ := price_incl_tax_ in
  let avail_raw := default "" (info !! "Availability") in
  let availability_ :=
    if Str.contains "In stock" avail_raw then "In stock" else "Out of stock" in
  let avail_match := Re.search re_avail avail_raw in
  num_available_ ←
    match avail_match with
    | Some m => Py.int (Re.group1 m)
    | None => Ok 0
    end;
  num_reviews_ ←
    match info !! "Number of reviews" with
    | Some v => Py.int v
    | None => Ok 0
    end;
  let description_ := parse_description soup in
  Ok {| title := title_; category := category_; rating := rating_;
        price := price_; price_excl_tax := price_excl_tax_;
        price_incl_tax := price_incl_tax_; tax := tax_;
        availability := availability_; num_available := num_available_;
        num_reviews := num_reviews_; upc := upc_;
        product_type := product_type_; description := description_;
        book_url := url |}.

Definition parse_book_page (url : str) : M (option book) :=
  soup ← get_page url;
  match soup with
  | None => mret None
  | Some soup => book ← lift (parse_soup url soup); mret (Some book)
  end.

(** ** Step 3: the loop of [main] over the links

    [if book:] holds for every dictionary [parse_book_page] returns: it has
    fourteen keys. *)
Fixpoint books_loop (book_urls : list str) (books_data : list book)
  : M (list book) :=
  match book_urls with
  | [] => mret books_data
  | url :: rest =>
      book ← parse_book_page url;
      let books_data' :=
        match book with
        | Some b => books_data ++ [b]
        | None => books_data
        end in
      _ ← polite_sleep;
      books_loop rest books_data'
  end.

Definition main : M (list book) :=
  book_urls ← collect_book_urls NUM_CATALOGUE_PAGES;
  books_loop book_urls [].

(** ** A page of the site, for the examples *)

Definition tag (nm : str) (cs : list node) : node := Elem nm [] ∅ cs.
Definition tagc (nm cl : str) (cs : list node) : node := Elem nm [cl] ∅ cs.

Definition row (h v : str) : node :=
  tag "tr" [tag "th" [Text h]; tag "td" [Text v]].

Definition sample_page : node :=
  tag "[document]" [
    tagc "ul" "breadcrumb" [
      tag "li" [tag "a" [Text "Home"]];
      tag "li" [tag "a" [Text "Books"]];
      tag "li" [tag "a" [Text "Poetry"]];
      tag "li" [Text "A Light in the Attic"]];
    tagc "article" "product_page" [
      tagc "div" "product_main" [
        tag "h1" [Text "A Light in the Attic"];
        Elem "p" ["star-rating"; "Four"] ∅ []];
      Elem "div" [] {["id" := "product_description"]} [tag "h2" [Text "Product Description"]];
      tag "p" [Text " It's hard to imagine a world without it. "];
      Elem "table" ["table"; "table-striped"] ∅ [
        row "UPC" "a897fe39b1053632";
        row "Product Type" "Books";
        row "Price (excl. tax)" "£51.77";
        row "Price (incl. tax)" "£51.77";
        row "Tax" "£0.00";
        row "Availability" "
          In stock (22 available)
        ";
        row "Number of reviews" "0"]]].

(** ** Auxiliary definitions of the statements *)

(** The world after a request for [url]. *)
Definition sent (url : str) (w : World) : World :=
  {| answers := answers w; requests := requests w ++ [url] |}.

(** What the next request gets. *)
Definition next_answer (url : str) (w : World) : option node :=
  answers w (length (requests w)) url.

(** Whether [s] begins with a character of the class [p]. *)
Definition starts (p : char → bool) (s : str) : bool :=
  match s with
  | SChar a _ => p a
  | SEmpty => false
  end.

(** The loop of [Re.rmatch] for [Plus (Cls p)], on its own. *)
Section ClsLoop.
Context {R : Type} (p : char → bool) (k : str → list str → option R).

Fixpoint cls_loop (fuel : nat) (s : str) (caps : list str) : option R :=
  match fuel with
  | O => None
  | S fuel' =>
      match s with
      | SChar a s' =>
          if p a then
            match (if (Str.length s' <? Str.length s)%nat
                   then cls_loop fuel' s' caps else None) with
            | Some x => Some x
            | None => k s' caps
            end
          else None
      | SEmpty => None
      end
  end.
End ClsLoop.

(** [raw] holds the count [ds] after [pre]: ["(" ds " available)"]. *)
Definition count_at (raw pre ds post : str) : Prop :=
  raw = pre +:+ "(" +:+ ds +:+ " available)" +:+ post
  ∧ ds ≠ "" ∧ Str.all Str.is_digit ds = true.

(** What [parse_book_page] makes of [sample_page]. *)
Definition sample_book (url : str) : book :=
  {| title := "A Light in the Attic"; category := "Poetry"; rating := 4;
     price := (5177 # 100)%Q; price_excl_tax := (5177 # 100)%Q;
     price_incl_tax := (5177 # 100)%Q; tax := 0%Q;
     availability := "In stock"; num_available := 22; num_reviews := 0;
     upc := "a897fe39b1053632"; product_type := "Books";
     description := "It's hard to imagine a world without it.";
     book_url := url |}.

(** A network that answers every request with the same page, and a run
    that has asked nothing yet. *)
Definition serve (page : node) : World :=
  {| answers := fun _ _ => Some page; requests := [] |}.

(** A page that has nothing but the table, with one row. *)
Definition one_row_page (h v : str) : node :=
  tag "[document]" [Elem "table" ["table"; "table-striped"] ∅ [row h v]].

(** What [parse_book_page] makes of a page without any of the blocks. *)
Definition empty_book (url : str) : book :=
  {| title := ""; category := ""; rating := 0;
     price := 0%Q; price_excl_tax := 0%Q; price_incl_tax := 0%Q; tax := 0%Q;
     availability := "Out of stock"; num_available := 0; num_reviews := 0;
     upc := ""; product_type := ""; description := ""; book_url := url |}.

(** The class [[\d.]] of [re_price]. *)
Definition price_char (c : char) : bool := Str.is_digit c || (c =? c_dot)%N.

(** The words of the specification for the resolution of a link: the
    leading ["../"] segments are stripped, the rest is left as it is. *)
Fixpoint strip_leading_go (fuel : nat) (s : str) : str :=
  match fuel with
  | O => s
  | S fuel' =>
      match Str.strip_prefix "../" s with
      | Some rest => strip_leading_go fuel' rest
      | None => s
      end
  end.

Definition strip_leading_dotdot (s : str) : str :=
  strip_leading_go (Str.length s) s.

(** The words of the specification for the address of a listing page. *)
Definition listing_url (n : Z) : str :=
  CATALOGUE_URL +:+ "page-" +:+ Str.of_Z n +:+ ".html".

(** An item of a listing page, with its link. *)
Definition link_article (href : str) : node :=
  tagc "article" "product_pod"
    [tag "h3" [Elem "a" [] {["href" := href]} [Text "A Light in the Attic"]]].

(** A network that fails on the request number [i] and answers every other
    one with the same page. *)
Definition serve_but (i : nat) (page : node) : World :=
  {| answers := fun k _ => if (k =? i)%nat then None else Some page;
     requests := [] |}.

(** The link of an item, as the loop reads it: the [href] of the first
    anchor below the first heading. *)
Definition article_href (article : node) : option str :=
  h3 ← Bs.find (Bs.tag_is "h3") article;
  link_tag ← Bs.find (Bs.tag_is "a") h3;
  Bs.attrs link_tag !! "href".

(** The reference the loop builds from a link. *)
Definition full_url (href : str) : str :=
  CATALOGUE_URL +:+ Str.remove "../" href.

(** The links of one answer to a request for a listing page, on their own. *)
Definition page_links (answer : option node) : result (list str) :=
  match answer with
  | None => Ok []
  | Some soup =>
      articles_loop (Bs.find_all (Bs.tag_class "article" "product_pod") soup) []
  end.

(** A network that is down. *)
Definition offline : World :=
  {| answers := fun _ _ => None; requests := [] |}.

(** A listing page with the items of the given links. *)
Definition listing_page (hrefs : list str) : node :=
  tag "[document]" (link_article <$> hrefs).

(** A network that answers the request number [i] with [other] and every
    other one with [page]. *)
Definition serve_with (i : nat) (other page : node) : World :=
  {| answers := fun k _ => Some (if (k =? i)%nat then other else page);
     requests := [] |}.

(** A page with the block of the title and no heading in it. *)
Definition headless_page : node :=
  tag "[document]" [tagc "div" "product_main" []].


(** The header and the value of a row of the table, as the loop reads
    them. *)
Definition row_cells (row : node) : option (str * str) :=
  th ← Bs.find (Bs.tag_is "th") row;
  td ← Bs.find (Bs.tag_is "td") row;
  Some (Bs.get_text th, Bs.get_text td).

(** No row of [rows] has the header [h]. *)
Definition no_header (h : str) (rows : list node) : Prop :=
  Forall (fun r => ∀ v, row_cells r ≠ Some (h, v)) rows.

(** The number of dots of a str. *)
Fixpoint count_dots (s : str) : nat :=
  match s with
  | SEmpty => 0
  | SChar c s' => ((if (c =? c_dot)%N then 1 else 0) + count_dots s')%nat
  end.

(** Whether [s] ends with a character of the class [p]. *)
Fixpoint ends (p : char → bool) (s : str) : bool :=
  match s with
  | SEmpty => false
  | SChar c s' =>
      match s' with
      | SEmpty => p c
      | SChar _ _ => ends p s'
      end
  end.

(** A str with no whitespace at either end. *)
Definition trimmed (s : str) : Prop :=
  starts Str.is_space s = false ∧ ends Str.is_space s = false.

(** A run of [n] digits [1], and a raw availability whose count has one
    digit more than [int] reads. *)
Definition ones (n : nat) : str := Nat.iter n (SChar 49%N) SEmpty.


End Scraper.

(** * Properties *)

Section Properties.
Context {U : Unicode}.

(** ** The two monads *)

Lemma bind_Ok {A B} (r : result A) (f : A → result B) (b : B) :
  r ≫= f = Ok b ↔ ∃ a, r = Ok a ∧ f a = Ok b.
Proof.
  destruct r as [a|e]; simpl; split.
  - intros H. exists a. split; [reflexivity|exact H].
  - intros (a' & Ha & Hf). injection Ha as ->. exact Hf.
  - discriminate.
  - intros (a' & Ha & _). discriminate.
Qed.

Lemma parse_book_page_eq url w :
  parse_book_page url w =
    (match next_answer url w with
     | None => Ok None
     | Some soup =>
         match parse_soup url soup with
         | Ok b => Ok (Some b)
         | Raise e => Raise e
         end
     end, sent url w).
Proof.
  unfold parse_book_page, next_answer, sent, get_page, mbind, M_bind, lift.
  destruct (answers w (length (requests w)) url) as [soup|]; [|reflexivity].
  destruct (parse_soup url soup); reflexivity.
Qed.

Lemma books_loop_cons url rest acc w :
  books_loop (url :: rest) acc w =
    match next_answer url w with
    | None => books_loop rest acc (sent url w)
    | Some soup =>
        match parse_soup url soup with
        | Ok b => books_loop rest (acc ++ [b]) (sent url w)
        | Raise e => (Raise e, sent url w)
        end
    end.
Proof.
  cbn [books_loop]. unfold mbind at 1, M_bind at 1.
  rewrite parse_book_page_eq.
  destruct (next_answer url w) as [soup|]; [|reflexivity].
  destruct (parse_soup url soup); reflexivity.
Qed.

(** ** What a returned record holds *)

Lemma parse_soup_Ok url soup b :
  parse_soup url soup = Ok b →
  ∃ info,
    parse_info soup = Ok info
    ∧ parse_title soup = Ok (title b)
    ∧ category b = parse_category soup
    ∧ rating b = parse_rating soup
    ∧ upc b = default "" (info !! "UPC")
    ∧ product_type b = default "" (info !! "Product Type")
    ∧ parse_price (default "0" (info !! "Price (excl. tax)")) = Ok (price_excl_tax b)
    ∧ parse_price (default "0" (info !! "Price (incl. tax)")) = Ok (price_incl_tax b)
    ∧ parse_price (default "0" (info !! "Tax")) = Ok (tax b)
    ∧ price b = price_incl_tax b
    ∧ availability b =
        (if Str.contains "In stock" (default "" (info !! "Availability"))
         then "In stock" else "Out of stock")
    ∧ match Re.search re_avail (default "" (info !! "Availability")) with
      | Some m => Py.int (Re.group1 m)
      | None => Ok 0
      end = Ok (num_available b)
    ∧ match info !! "Number of reviews" with
      | Some v => Py.int v
      | None => Ok 0
      end = Ok (num_reviews b)
    ∧ description b = parse_description soup
    ∧ book_url b = url.
Proof.
  unfold parse_soup. intros H.
  apply bind_Ok in H as (t & Ht & H).
  apply bind_Ok in H as (info & Hinfo & H).
  apply bind_Ok in H as (pe & Hpe & H).
  apply bind_Ok in H as (pi & Hpi & H).
  apply bind_Ok in H as (tx & Htx & H).
  apply bind_Ok in H as (na & Hna & H).
  apply bind_Ok in H as (nr & Hnr & H).
  injection H as <-. exists info. cbn [title category rating price
    price_excl_tax price_incl_tax tax availability num_available num_reviews
    upc product_type description book_url].
  repeat split; assumption || reflexivity.
Qed.

(** ** Strings *)

Section StringFacts.
Implicit Types (s t u : str) (p : char → bool).

Lemma app_assoc_s s t u : (s +:+ t) +:+ u = s +:+ (t +:+ u).
Proof. induction s as [|c s IH]; simpl; [reflexivity | by rewrite IH]. Qed.

Lemma app_empty_r s : s +:+ "" = s.
Proof. induction s as [|c s IH]; simpl; [reflexivity | by rewrite IH]. Qed.

Lemma length_app_s s t :
  Str.length (s +:+ t) = (Str.length s + Str.length t)%nat.
Proof. induction s as [|c s IH]; simpl; [reflexivity | by rewrite IH]. Qed.

Lemma take_app_length s t : Str.take (Str.length s) (s +:+ t) = s.
Proof. induction s as [|c s IH]; simpl; [by destruct t | by rewrite IH]. Qed.

Lemma consumed_app s t : Re.consumed (s +:+ t) t = s.
Proof.
  unfold Re.consumed. rewrite length_app_s.
  replace (Str.length s + Str.length t - Str.length t)%nat
    with (Str.length s) by lia.
  apply take_app_length.
Qed.

Lemma strip_prefix_Some t s rest :
  Str.strip_prefix t s = Some rest ↔ s = t +:+ rest.
Proof.
  revert s. induction t as [|a t IH]; intros s; simpl.
  - split; [by intros [= ->] | by intros ->].
  - destruct s as [|b s]; [split; discriminate|].
    destruct (N.eqb_spec a b) as [->|Hne].
    + rewrite IH. split; [by intros -> | by intros [= ->]].
    + split; [discriminate | intros [= -> _]; by destruct Hne].
Qed.



Lemma all_app p s t : Str.all p (s +:+ t) = Str.all p s && Str.all p t.
Proof.
  induction s as [|c s IH]; simpl; [reflexivity|].
  by rewrite IH, andb_assoc.
Qed.

Lemma digits_acc_app acc s t :
  Str.digits_acc acc (s +:+ t) = Str.digits_acc (Str.digits_acc acc s) t.
Proof. revert acc. induction s as [|c s IH]; intros acc; simpl; [reflexivity | apply IH]. Qed.

End StringFacts.

(** ** The matcher *)

Section RegexFacts.
Context {R : Type}.
Implicit Types (k : str → list str → option R) (p : char → bool).

Lemma rmatch_plus_cls p s caps k :
  Re.rmatch (Re.Plus (Re.Cls p)) s caps k
  = cls_loop p k (S (Str.length s)) s caps.
Proof. reflexivity. Qed.

Lemma cls_loop_no_start p k fuel s caps :
  starts p s = false → cls_loop p k fuel s caps = None.
Proof.
  destruct fuel; [reflexivity|]. destruct s as [|a s]; [reflexivity|].
  simpl. by intros ->.
Qed.

(** Whatever the loop answers, it got from [k] after a non-empty run of
    the class. *)
Lemma cls_loop_sound p k fuel s caps x :
  cls_loop p k fuel s caps = Some x →
  ∃ run rest, s = run +:+ rest ∧ run ≠ "" ∧ Str.all p run = true
              ∧ k rest caps = Some x.
Proof.
  revert s. induction fuel as [|fuel IH]; intros s; [discriminate|].
  destruct s as [|a s]; [discriminate|]. cbn [cls_loop].
  destruct (p a) eqn:Hp; [|discriminate].
  destruct (if (Str.length s <? Str.length (SChar a s))%nat
            then cls_loop p k fuel s caps else None) as [y|] eqn:E.
  - intros [= ->]. destruct (_ <? _)%nat; [|discriminate].
    apply IH in E as (run & rest & -> & Hne & Hall & Hk).
    exists (SChar a run), rest. simpl. by rewrite Hp, Hall.
  - intros Hk. exists (SChar a ""), s. simpl. by rewrite Hp.
Qed.


Lemma rmatch_lits t s caps k :
  Re.rmatch (Re.lits t) s caps k
  = match Str.strip_prefix t s with
    | Some rest => k rest caps
    | None => None
    end.
Proof.
  revert s. induction t as [|a t IH]; intros s; simpl; [reflexivity|].
  destruct s as [|b s]; [reflexivity|].
  rewrite (N.eqb_sym b a).
  destruct ((a =? b)%N); [apply IH | reflexivity].
Qed.

End RegexFacts.

(** [search] answers with the match at the leftmost position that has one. *)
Lemma search_Some r s m :
  Re.search r s = Some m ↔
  ∃ pre s', s = pre +:+ s' ∧ Re.match_at r s' = Some m
            ∧ ∀ pre1 s1, s = pre1 +:+ s1 →
                (Str.length pre1 < Str.length pre)%nat →
                Re.match_at r s1 = None.
Proof.
  induction s as [|c s IH]; simpl.
  - destruct (Re.match_at r "") as [m'|] eqn:E.
    + split.
      * intros [= ->]. exists "", "". split; [done|]. split; [done|].
        intros ?? _ ?. simpl in *. lia.
      * intros (pre & s' & H & Hm & _). destruct pre; [|discriminate].
        simpl in H. subst s'. congruence.
    + split; [discriminate|].
      intros (pre & s' & H & Hm & _). destruct pre; [|discriminate].
      simpl in H. subst s'. congruence.
  - destruct (Re.match_at r (SChar c s)) as [m'|] eqn:E.
    + split.
      * intros [= ->]. exists "", (SChar c s). split; [done|]. split; [done|].
        intros ?? _ ?. simpl in *. lia.
      * intros (pre & s' & H & Hm & Hmin). destruct pre as [|c' pre].
        -- simpl in H. subst s'. congruence.
        -- rewrite (Hmin "" (SChar c s)) in E; [done | done | simpl; lia].
    + rewrite IH. split.
      * intros (pre & s' & -> & Hm & Hmin). exists (SChar c pre), s'.
        split; [done|]. split; [done|]. intros pre1 s1 H1 Hlt.
        destruct pre1 as [|c1 pre1]; simpl in H1.
        -- by subst s1.
        -- injection H1 as -> H1. apply (Hmin pre1 s1 H1). simpl in Hlt. lia.
      * intros (pre & s' & H & Hm & Hmin). destruct pre as [|c' pre].
        -- simpl in H. subst s'. congruence.
        -- simpl in H. injection H as -> ->. exists pre, s'.
           split; [done|]. split; [done|]. intros pre1 s1 H1 Hlt.
           apply (Hmin (SChar c' pre1) s1); [simpl; by rewrite H1 | simpl; lia].
Qed.


(** ** The classes of characters *)

Lemma digit_not_space c : Str.is_digit c = true → Str.is_space c = false.
Proof.
  unfold Str.is_digit, Str.decimal, Str.is_space.
  destruct (c <? 128)%N.
  - destruct ((48 <=? c) && (c <=? 57))%N eqn:D; [|discriminate]. intros _.
    apply andb_true_iff in D as [D1%N.leb_le D2%N.leb_le].
    apply orb_false_iff. split; apply andb_false_iff.
    + right. apply N.leb_gt. lia.
    + right. apply N.leb_gt. lia.
  - destruct (wide_decimal c) as [v|] eqn:W; [|discriminate]. intros _.
    by apply (wide_decimal_no_space c v).
Qed.

(** The whitespace of [int] is whitespace for [str.strip]. *)
Lemma int_space_is_space c : Py.int_space c = true → Str.is_space c = true.
Proof.
  unfold Py.int_space, Str.is_space. destruct (c <? 128)%N; [|done].
  intros [H|H%N.eqb_eq]%orb_true_iff; apply orb_true_iff.
  - by left.
  - right. subst c. reflexivity.
Qed.

Lemma digit_not_int_space c : Str.is_digit c = true → Py.int_space c = false.
Proof.
  intros H. destruct (Py.int_space c) eqn:E; [|done].
  apply int_space_is_space in E. by rewrite (digit_not_space c H) in E.
Qed.

Lemma digit_not_sign c :
  Str.is_digit c = true →
  (c =? c_minus)%N = false ∧ (c =? c_plus)%N = false.
Proof.
  intros H. split; apply N.eqb_neq; intros ->; discriminate.
Qed.

Lemma digit_val_lt c : Str.is_digit c = true → (Str.digit_val c < 10)%N.
Proof.
  unfold Str.is_digit, Str.digit_val, Str.decimal.
  destruct (c <? 128)%N.
  - destruct ((48 <=? c) && (c <=? 57))%N eqn:D; [|discriminate]. intros _.
    apply andb_true_iff in D as [D1%N.leb_le D2%N.leb_le]. simpl. lia.
  - destruct (wide_decimal c) as [v|] eqn:W; [|discriminate]. intros _.
    simpl. by apply (wide_decimal_lt c v).
Qed.

(** ** Stripping *)

Lemma lstrip_by_id p s : starts p s = false → Str.lstrip_by p s = s.
Proof. destruct s as [|c s]; simpl; [done | by intros ->]. Qed.

Lemma rstrip_by_none p s : Str.any p s = false → Str.rstrip_by p s = s.
Proof.
  induction s as [|c s IH]; simpl; [done|].
  intros [Hc Hs]%orb_false_iff. by rewrite Hc, IH.
Qed.

(** [rstrip] keeps the first character of what it leaves. *)
Lemma rstrip_by_head p s c r :
  Str.rstrip_by p s = SChar c r → ∃ r', s = SChar c r'.
Proof.
  destruct s as [|c' s]; simpl; [discriminate|].
  destruct (p c' && Str.is_empty (Str.rstrip_by p s)); [discriminate|].
  intros [= -> _]. by exists s.
Qed.

Lemma digits_no_class (p : N → bool) s :
  (∀ c, Str.is_digit c = true → p c = false) →
  Str.all Str.is_digit s = true → Str.any p s = false.
Proof.
  intros Hp. induction s as [|c s IH]; simpl; [done|].
  intros [Hc Hs]%andb_true_iff. by rewrite (Hp c Hc), IH.
Qed.

(** ** [int] on what the patterns capture *)

Lemma int_digits_run after acc count s :
  Str.all Str.is_digit s = true → (after = true ∨ s ≠ "") →
  Py.int_digits after acc count s
  = Some (Str.digits_acc acc s, (count + Str.length s)%nat).
Proof.
  revert after acc count.
  induction s as [|c s IH]; intros after acc count Hall Hne; simpl.
  - destruct Hne as [->|?]; [|done]. by rewrite Nat.add_0_r.
  - simpl in Hall. apply andb_true_iff in Hall as [-> Hall].
    rewrite IH; [|done | by left]. do 2 f_equal. lia.
Qed.

(** A non-empty run of digits is an integer literal, with its value,
    unless it is too long. *)
Lemma int_of_digits s :
  s ≠ "" → Str.all Str.is_digit s = true →
  Py.int s = if (Py.max_str_digits <? Str.length s)%nat
             then Raise ValueError
             else Ok (Z.of_N (Str.digits s)).
Proof.
  intros Hne Hall. unfold Py.int.
  rewrite lstrip_by_id.
  2:{ destruct s as [|c s]; [done|]. simpl in *.
      apply andb_true_iff in Hall as [Hc _]. by apply digit_not_int_space. }
  rewrite rstrip_by_none
    by (apply digits_no_class; [apply digit_not_int_space | done]).
  destruct s as [|c s]; [done|].
  pose proof Hall as Hc. simpl in Hc. apply andb_true_iff in Hc as [Hc _].
  destruct (digit_not_sign c Hc) as [-> ->].
  rewrite (int_digits_run false 0 0 _ Hall); [|by right]. reflexivity.
Qed.

Lemma lstrip_minus v r :
  Str.lstrip_by Py.int_space v = SChar c_minus r →
  ∃ r', Str.lstrip v = SChar c_minus r'.
Proof.
  unfold Str.lstrip. induction v as [|c v IH]; simpl; [discriminate|].
  destruct (Py.int_space c) eqn:E.
  - rewrite (int_space_is_space c E). exact IH.
  - intros [= -> ->]. by exists r.
Qed.

(** Only a leading minus sign makes [int] negative. *)
Lemma int_nonneg v n :
  Py.int v = Ok n → Str.strip_prefix "-" (Str.strip v) = None → 0 ≤ n.
Proof.
  unfold Py.int.
  destruct (Str.rstrip_by Py.int_space (Str.lstrip_by Py.int_space v))
    as [|c t] eqn:Et.
  - cbn. discriminate.
  - destruct (c =? c_minus)%N eqn:Ec.
    + intros _ Hstrip. apply N.eqb_eq in Ec as ->.
      apply rstrip_by_head in Et as (r1 & Hl).
      apply lstrip_minus in Hl as (r2 & Hl).
      unfold Str.strip in Hstrip. rewrite Hl in Hstrip.
      unfold Str.rstrip in Hstrip. simpl in Hstrip. discriminate.
    + intros H _.
      destruct (c =? c_plus)%N;
        match type of H with
        | match ?d with _ => _ end = _ =>
            destruct d as [[m count]|]; [|discriminate]
        end;
        destruct (Py.max_str_digits <? count)%nat; try discriminate;
        injection H as <-; lia.
Qed.

(** ** The pattern of the count *)

Lemma match_at_avail_eq a s :
  Re.match_at re_avail (SChar a s)
  = if (a =? c_lparen)%N then
      cls_loop Str.is_digit
        (fun s1 c1 =>
           Re.rmatch (Re.lits " available)") s1 (c1 ++ [Re.consumed s s1])
             (fun rest caps =>
                Some {| Re.group0 := Re.consumed (SChar a s) rest;
                        Re.groups := caps |}))
        (S (Str.length s)) s []
    else None.
Proof. reflexivity. Qed.

Lemma match_at_avail_Some s m :
  Re.match_at re_avail s = Some m →
  ∃ ds post, count_at s "" ds post ∧ Re.group1 m = ds.
Proof.
  destruct s as [|a s]; [discriminate|]. rewrite match_at_avail_eq.
  destruct (N.eqb_spec a c_lparen) as [->|]; [|discriminate].
  intros H.
  apply cls_loop_sound in H as (run & rest & -> & Hne & Hall & Hk).
  rewrite rmatch_lits in Hk.
  destruct (Str.strip_prefix " available)" rest) as [post|] eqn:E; [|discriminate].
  apply strip_prefix_Some in E as ->. injection Hk as <-.
  exists run, post. split; [done|].
  unfold Re.group1. simpl. apply consumed_app.
Qed.


(** C2. Every record [parse_book_page] returns has its [price] equal to its
    [price_incl_tax]: the one is assigned from the other. *)
Theorem price_is_price_incl_tax url w b :
  (parse_book_page url w).1 = Ok (Some b) → price b = price_incl_tax b.
Proof.
  rewrite parse_book_page_eq. cbn [fst].
  destruct (next_answer url w) as [soup|]; [|discriminate].
  destruct (parse_soup url soup) as [b'|e] eqn:E; [|discriminate].
  intros [= <-]. apply parse_soup_Ok in E as (info & H).
  apply H.
Qed.





Lemma num_available_nonneg raw n :
  match Re.search re_avail raw with
  | Some m => Py.int (Re.group1 m)
  | None => Ok 0
  end = Ok n → 0 ≤ n.
Proof.
  destruct (Re.search re_avail raw) as [m|] eqn:E.
  - apply search_Some in E as (pre & s' & _ & Hm & _).
    apply match_at_avail_Some in Hm as (ds & post & (_ & Hne & Hall) & ->).
    rewrite (int_of_digits ds Hne Hall).
    destruct (Py.max_str_digits <? Str.length ds)%nat; [discriminate|].
    intros [= <-]. lia.
  - intros [= <-]. lia.
Qed.

(** C9, amended. In every record [num_available] is at least 0; and
    [num_reviews] is 0 when the table has no number of reviews, and at
    least 0 when the value it has does not begin with a minus sign. *)
Theorem counts_nonnegative url soup b :
  parse_soup url soup = Ok b →
  ∃ info, parse_info soup = Ok info
    ∧ 0 ≤ num_available b
    ∧ (info !! "Number of reviews" = None → num_reviews b = 0)
    ∧ (∀ v, info !! "Number of reviews" = Some v →
            Str.strip_prefix "-" (Str.strip v) = None → 0 ≤ num_reviews b).
Proof.
  intros H.
  apply parse_soup_Ok in H
    as (info & Hinfo & _ & _ & _ & _ & _ & _ & _ & _ & _ & _ & Hnum & Hrev & _).
  exists info. split; [exact Hinfo|]. split; [|split].
  - by apply num_available_nonneg in Hnum.
  - intros Hnone. rewrite Hnone in Hrev. by injection Hrev as <-.
  - intros v Hv Hsign. rewrite Hv in Hrev. by apply (int_nonneg v).
Qed.

(** ** Where the detail extractor raises *)

(** [parse_book_page] answers [None] exactly when the request fails. *)
Lemma absent_iff_fetch_fails url w :
  (parse_book_page url w).1 = Ok None ↔ next_answer url w = None.
Proof.
  rewrite parse_book_page_eq. cbn [fst].
  destruct (next_answer url w) as [soup|]; [|done].
  destruct (parse_soup url soup); split; discriminate.
Qed.

(** C1 fails on the code: a page that has the block of the title but no
    heading inside it makes [parse_book_page] raise [AttributeError],
    where the claim says that the title is [""]. *)
Theorem missing_heading_raises url w soup title_tag :
  next_answer url w = Some soup →
  Bs.find (Bs.tag_class "div" "product_main") soup = Some title_tag →
  Bs.find (Bs.tag_is "h1") title_tag = None →
  (parse_book_page url w).1 = Raise AttributeError.
Proof.
  intros Hw Hdiv Hh1. rewrite parse_book_page_eq, Hw. cbn [fst].
  unfold parse_soup, parse_title. rewrite Hdiv, Hh1. reflexivity.
Qed.

(** The count of the availability raises in one case only: the leftmost
    count of the raw value has more digits than [int] reads. *)
Lemma count_outcome raw :
  (∃ n, match Re.search re_avail raw with
        | Some m => Py.int (Re.group1 m)
        | None => Ok 0
        end = Ok n)
  ∨ (match Re.search re_avail raw with
     | Some m => Py.int (Re.group1 m)
     | None => Ok 0
     end = Raise ValueError
     ∧ ∃ pre ds post,
         count_at raw pre ds post
         ∧ (Py.max_str_digits < Str.length ds)%nat).
Proof.
  destruct (Re.search re_avail raw) as [m|] eqn:E; [|left; by exists 0].
  apply search_Some in E as (pre & s' & -> & Hm & _).
  apply match_at_avail_Some in Hm as (ds & post & (Hs & Hne & Hall) & ->).
  rewrite (int_of_digits ds Hne Hall).
  destruct (Py.max_str_digits <? Str.length ds)%nat eqn:El.
  - right. split; [done|]. exists pre, ds, post. apply Nat.ltb_lt in El.
    split; [|done]. simpl in Hs. by rewrite Hs.
  - left. by eexists.
Qed.

(** A record is returned as soon as the title, the table, the three
    prices, the count of the availability and the number of reviews
    are. *)
Lemma parse_soup_returns url soup t info pe pi tx na nr :
  parse_title soup = Ok t →
  parse_info soup = Ok info →
  parse_price (default "0" (info !! "Price (excl. tax)")) = Ok pe →
  parse_price (default "0" (info !! "Price (incl. tax)")) = Ok pi →
  parse_price (default "0" (info !! "Tax")) = Ok tx →
  match Re.search re_avail (default "" (info !! "Availability")) with
  | Some m => Py.int (Re.group1 m)
  | None => Ok 0
  end = Ok na →
  match info !! "Number of reviews" with
  | Some v => Py.int v
  | None => Ok 0
  end = Ok nr →
  ∃ b, parse_soup url soup = Ok b.
Proof.
  intros Ht Hinfo Hpe Hpi Htx Hna Hnr. unfold parse_soup.
  rewrite Ht, Hinfo. cbn [mbind result_bind]. rewrite Hpe, Hpi, Htx.
  cbn [mbind result_bind]. rewrite Hna.
  cbn [mbind result_bind]. rewrite Hnr. by eexists.
Qed.

(** ** The parser of prices *)

Lemma search_eq r s :
  Re.search r s =
    match Re.match_at r s with
    | Some m => Some m
    | None =>
        match s with
        | SEmpty => None
        | SChar _ s' => Re.search r s'
        end
    end.
Proof. destruct s; reflexivity. Qed.

Lemma match_at_price_eq s :
  Re.match_at re_price s
  = cls_loop price_char
      (fun rest caps =>
         Some {| Re.group0 := Re.consumed s rest; Re.groups := caps |})
      (S (Str.length s)) s [].
Proof. reflexivity. Qed.

Lemma search_price_none raw :
  Str.any price_char raw = false → Re.search re_price raw = None.
Proof.
  induction raw as [|c raw IH]; intros H.
  - reflexivity.
  - simpl in H. apply orb_false_iff in H as [Hc H].
    rewrite search_eq, match_at_price_eq.
    rewrite cls_loop_no_start by exact Hc. by apply IH.
Qed.

(** What the price pattern finds is a non-empty run of digits and dots:
    the strings [float] is given. *)
Lemma search_price_chars raw m :
  Re.search re_price raw = Some m →
  Re.group0 m ≠ "" ∧ Str.all price_char (Re.group0 m) = true.
Proof.
  intros (pre & s' & _ & Hm & _)%search_Some.
  rewrite match_at_price_eq in Hm.
  apply cls_loop_sound in Hm as (run & rest & -> & Hne & Hall & [= <-]).
  cbn [Re.group0]. by rewrite consumed_app.
Qed.

Lemma digit_not_dot c : Str.is_digit c = true → (c =? c_dot)%N = false.
Proof. intros H. apply N.eqb_neq. intros ->. discriminate. Qed.

Lemma all_digits_price s :
  Str.all Str.is_digit s = true → Str.all price_char s = true.
Proof.
  induction s as [|c s IH]; simpl; [done|].
  intros [Hc Hs]%andb_true_iff. rewrite (IH Hs).
  unfold price_char. by rewrite Hc.
Qed.

Lemma digits_acc_shift acc s :
  Str.digits_acc acc s
  = (acc * 10 ^ N.of_nat (Str.length s) + Str.digits s)%N.
Proof.
  unfold Str.digits. revert acc.
  induction s as [|c s IH]; intros acc; cbn [Str.digits_acc Str.length].
  - simpl. lia.
  - rewrite (IH (10 * acc + Str.digit_val c)%N), (IH (10 * 0 + Str.digit_val c)%N).
    rewrite Nat2N.inj_succ, N.pow_succ_r'. lia.
Qed.

(** X20. A raw value with no digit and no dot has no run for the pattern:
    [parse_price] returns the default 0.0. *)
Lemma parse_price_no_run raw :
  Str.any price_char raw = false → parse_price raw = Ok 0%Q.
Proof. intros H. unfold parse_price. by rewrite search_price_none. Qed.

(** C3 fails on the code: a str that has a dot and no digit has a run
    for the pattern, which [float] refuses; the parser raises [ValueError]
    where the claim says 0.0. *)
Theorem parse_price_dot_raises :
  Str.any Str.is_digit "." = false ∧ parse_price "." = Raise ValueError.
Proof. split; vm_compute; reflexivity. Qed.

(** ** The listing enumerator: items and links *)

(** C7 fails on the code: an item without a heading makes the loop over
    the items raise [AttributeError], where the claim says that the item
    is skipped and the loop goes on. *)
Theorem article_without_heading_raises article rest book_urls :
  Bs.find (Bs.tag_is "h3") article = None →
  articles_loop (article :: rest) book_urls = Raise AttributeError.
Proof. intros H. cbn [articles_loop]. by rewrite H. Qed.

(** X23. The part of C7 that holds: an item with a heading and no anchor
    in it is skipped, and the loop goes on with the next items. *)
Lemma article_without_anchor_skipped article h3 rest book_urls :
  Bs.find (Bs.tag_is "h3") article = Some h3 →
  Bs.find (Bs.tag_is "a") h3 = None →
  articles_loop (article :: rest) book_urls = articles_loop rest book_urls.
Proof. intros H1 H2. cbn [articles_loop]. by rewrite H1; simpl; rewrite H2. Qed.

Lemma remove_go_none fuel t s :
  Str.contains t s = false → Str.remove_go fuel t s = s.
Proof.
  revert s. induction fuel as [|fuel IH]; intros s H; [reflexivity|].
  cbn [Str.remove_go]. destruct s as [|c s]; simpl in H.
  - by destruct (Str.strip_prefix t "").
  - destruct (Str.strip_prefix t (SChar c s)); [discriminate|].
    by rewrite IH.
Qed.

Lemma remove_strip_leading fuel s :
  Str.contains "../" (strip_leading_go fuel s) = false →
  Str.remove_go fuel "../" s = strip_leading_go fuel s.
Proof.
  revert s. induction fuel as [|fuel IH]; intros s H; [reflexivity|].
  cbn [strip_leading_go] in *.
  destruct (Str.strip_prefix "../" s) as [rest|] eqn:E.
  - cbn [Str.remove_go]. rewrite E. by apply IH.
  - by apply remove_go_none.
Qed.

(** C8, amended. The reference of a link is [CATALOGUE_URL] followed by the
    link without its occurrences of ["../"], wherever they are; when the
    link has none after its leading ones, this strips the leading ones and
    leaves the rest as it is. *)
Theorem resolve_link article h3 link_tag href rest book_urls :
  Bs.find (Bs.tag_is "h3") article = Some h3 →
  Bs.find (Bs.tag_is "a") h3 = Some link_tag →
  Bs.attrs link_tag !! "href" = Some href →
  articles_loop (article :: rest) book_urls
  = articles_loop rest
      (book_urls ++ [CATALOGUE_URL +:+ Str.remove "../" href])
  ∧ (Str.contains "../" (strip_leading_dotdot href) = false →
     Str.remove "../" href = strip_leading_dotdot href).
Proof.
  intros H1 H2 H3. split.
  - cbn [articles_loop]. rewrite H1. simpl. rewrite H2.
    unfold Bs.getitem. by rewrite H3.
  - apply remove_strip_leading.
Qed.

(** ** The loop of [main]: a failed request costs one record *)

(** The records of a run do not depend on what the loop starts from. *)
Lemma books_loop_acc urls acc w out :
  (books_loop urls acc w).1 = Ok out →
  ∃ out', out = acc ++ out'
          ∧ ∀ acc', (books_loop urls acc' w).1 = Ok (acc' ++ out').
Proof.
  revert acc w out. induction urls as [|u urls IH]; intros acc w out.
  - cbn. intros [= <-]. exists []. split; [by rewrite app_nil_r|].
    intros acc'. by rewrite app_nil_r.
  - rewrite books_loop_cons.
    destruct (next_answer u w) as [soup|] eqn:Ha.
    + destruct (parse_soup u soup) as [b|e] eqn:Hp; [|discriminate].
      intros H. apply IH in H as (out' & -> & Hacc).
      exists (b :: out'). split; [by rewrite <- app_assoc|].
      intros acc'. rewrite books_loop_cons, Ha, Hp, Hacc.
      by rewrite <- app_assoc.
    + intros H. apply IH in H as (out' & -> & Hacc).
      exists out'. split; [done|].
      intros acc'. by rewrite books_loop_cons, Ha, Hacc.
Qed.

(** The records of a run depend on the answers to come only. *)
Lemma books_loop_frame urls acc w w' :
  requests w' = requests w →
  (∀ k u, (length (requests w) ≤ k)%nat → answers w' k u = answers w k u) →
  (books_loop urls acc w').1 = (books_loop urls acc w).1.
Proof.
  revert acc w w'. induction urls as [|u urls IH]; intros acc w w' Hreq Hans.
  - reflexivity.
  - rewrite !books_loop_cons.
    assert (next_answer u w' = next_answer u w) as ->.
    { unfold next_answer. rewrite Hreq. by apply Hans. }
    assert (∀ acc', (books_loop urls acc' (sent u w')).1
                    = (books_loop urls acc' (sent u w)).1) as Hrest.
    { intros acc'. apply IH; cbn [sent requests answers].
      - by rewrite Hreq.
      - intros k u' Hk. apply Hans. rewrite length_app in Hk. lia. }
    destruct (next_answer u w) as [soup|]; [|apply Hrest].
    destruct (parse_soup u soup); [apply Hrest | reflexivity].
Qed.

Lemma failed_fetch_gen urls :
  ∀ i url acc w w' out,
    urls !! i = Some url →
    requests w' = requests w →
    (∀ k u, k ≠ (length (requests w) + i)%nat →
            answers w' k u = answers w k u) →
    answers w' (length (requests w) + i)%nat url = None →
    (∀ k u, urls !! k = Some u →
            is_Some (answers w (length (requests w) + k)%nat u)) →
    (books_loop urls acc w).1 = Ok out →
    ∃ out1 r out2,
      out = acc ++ out1 ++ r :: out2 ∧ length out1 = i ∧ book_url r = url
      ∧ (books_loop urls acc w').1 = Ok (acc ++ out1 ++ out2).
Proof.
  induction urls as [|u urls IH];
    intros i url acc w w' out Hi Hreq Hans Hfail Hall; [done|].
  rewrite !books_loop_cons.
  destruct (Hall 0%nat u eq_refl) as [soup Hsoup].
  rewrite Nat.add_0_r in Hsoup. unfold next_answer at 1. rewrite Hsoup.
  destruct (parse_soup u soup) as [b|e] eqn:Hp; [|discriminate].
  intros Hout. destruct i as [|i].
  - injection Hi as ->.
    assert (next_answer url w' = None) as ->.
    { unfold next_answer. rewrite Hreq. by rewrite Nat.add_0_r in Hfail. }
    apply books_loop_acc in Hout as (out' & -> & Hacc).
    exists [], b, out'. split; [by rewrite <- app_assoc|]. split; [done|].
    split; [by apply parse_soup_Ok in Hp as (? & Hb); apply Hb|].
    change ([] ++ out') with out'.
    rewrite <- (Hacc acc). apply books_loop_frame; cbn [sent requests answers].
    + by rewrite Hreq.
    + intros k u' Hk. apply Hans. rewrite length_app in Hk. simpl in Hk. lia.
  - assert (next_answer u w' = Some soup) as ->.
    { unfold next_answer. rewrite Hreq, Hans; [done | lia]. }
    rewrite Hp.
    destruct (IH i url (acc ++ [b]) (sent u w) (sent u w') out)
      as (out1 & r & out2 & -> & Hlen & Hurl & Hrun);
      cbn [sent requests answers]; try done.
    + by rewrite Hreq.
    + intros k u' Hk. apply Hans. rewrite length_app in Hk. simpl in Hk. lia.
    + rewrite length_app. simpl.
      by replace (length (requests w) + 1 + i)%nat
        with (length (requests w) + S i)%nat by lia.
    + intros k u' Hk. rewrite length_app. simpl.
      replace (length (requests w) + 1 + k)%nat
        with (length (requests w) + S k)%nat by lia.
      by apply Hall.
    + exists (b :: out1), r, out2. split; [by rewrite <- app_assoc|].
      split; [simpl; by rewrite Hlen|]. split; [done|].
      rewrite Hrun. by rewrite <- app_assoc.
Qed.

(** C4. When the request for one reference fails, in a run where all the
    others get the answers of a run without failure, the extraction of that
    reference gives [None], and the records of the run are those of the
    run without failure less the record of that reference: one fewer, the
    others the same and in the same order. *)
Theorem failed_fetch_drops_one_record urls i url w w' out :
  urls !! i = Some url →
  requests w' = requests w →
  (∀ k u, k ≠ (length (requests w) + i)%nat →
          answers w' k u = answers w k u) →
  answers w' (length (requests w) + i)%nat url = None →
  (∀ k u, urls !! k = Some u →
          is_Some (answers w (length (requests w) + k)%nat u)) →
  (books_loop urls [] w).1 = Ok out →
  (∀ w0, next_answer url w0 = None → (parse_book_page url w0).1 = Ok None)
  ∧ ∃ out1 r out2,
      out = out1 ++ r :: out2 ∧ length out1 = i ∧ book_url r = url
      ∧ (books_loop urls [] w').1 = Ok (out1 ++ out2)
      ∧ (length (out1 ++ out2) + 1 = length out)%nat.
Proof.
  intros Hi Hreq Hans Hfail Hall Hout. split.
  - intros w0. apply absent_iff_fetch_fails.
  - destruct (failed_fetch_gen urls i url [] w w' out Hi Hreq Hans Hfail Hall Hout)
      as (out1 & r & out2 & -> & Hlen & Hurl & Hrun).
    exists out1, r, out2. repeat split; try done.
    rewrite !length_app. simpl. lia.
Qed.

(** ** The addresses of the listing pages *)

Lemma pages_loop_cons page_num rest book_urls w :
  pages_loop (page_num :: rest) book_urls w =
    match next_answer (page_url page_num) w with
    | None => pages_loop rest book_urls (sent (page_url page_num) w)
    | Some soup =>
        match articles_loop
                (Bs.find_all (Bs.tag_class "article" "product_pod") soup)
                book_urls with
        | Ok book_urls' => pages_loop rest book_urls' (sent (page_url page_num) w)
        | Raise e => (Raise e, sent (page_url page_num) w)
        end
    end.
Proof.
  cbn [pages_loop]. unfold mbind at 1, M_bind at 1, get_page.
  fold (next_answer (page_url page_num) w). fold (sent (page_url page_num) w).
  destruct (next_answer (page_url page_num) w) as [soup|]; [|reflexivity].
  unfold mbind at 1, M_bind at 1, lift.
  destruct (articles_loop _ book_urls); reflexivity.
Qed.

(** The loop asks for the pages in order, one request each, until it ends
    or an error ends it. *)
Lemma pages_loop_requests pages book_urls w :
  ∃ asked,
    asked `prefix_of` pages
    ∧ requests (pages_loop pages book_urls w).2
      = requests w ++ (page_url <$> asked)
    ∧ (∀ urls, (pages_loop pages book_urls w).1 = Ok urls → asked = pages).
Proof.
  revert book_urls w. induction pages as [|n pages IH]; intros book_urls w.
  - exists []. split; [done|]. split; [by rewrite app_nil_r | done].
  - rewrite pages_loop_cons.
    assert (∀ acc, ∃ asked,
      asked `prefix_of` n :: pages
      ∧ requests (pages_loop pages acc (sent (page_url n) w)).2
        = requests w ++ (page_url <$> asked)
      ∧ (∀ urls, (pages_loop pages acc (sent (page_url n) w)).1 = Ok urls →
                 asked = n :: pages)) as Hstep.
    { intros acc.
      destruct (IH acc (sent (page_url n) w)) as (asked & Hpre & Hreq & Hok).
      exists (n :: asked). split; [by apply prefix_cons|].
      split.
      - rewrite Hreq. cbn [sent requests]. by rewrite <- app_assoc.
      - intros urls Hu. by rewrite (Hok urls Hu). }
    destruct (next_answer (page_url n) w) as [soup|]; [|apply Hstep].
    destruct (articles_loop _ book_urls) as [urls'|e]; [apply Hstep|].
    exists [n]. split; [apply prefix_cons, prefix_nil|].
    split; [reflexivity | discriminate].
Qed.

Lemma py_range_bounds a b n : n ∈ py_range a b → a ≤ n < b.
Proof.
  unfold py_range. intros (i & -> & Hi)%list_elem_of_fmap.
  apply elem_of_seq in Hi. lia.
Qed.

(** C10. The branch for the first page builds the address that the
    general branch would build: for every page number [N] the address is
    [CATALOGUE_URL] followed by [page-N.html]; and the addresses that
    [collect_book_urls] asks for are those of the pages 1 to [num_pages],
    in order, all of them when it returns. *)
Theorem page_url_branches_agree :
  (∀ n, page_url n = listing_url n)
  ∧ page_url 1 = CATALOGUE_URL +:+ "page-1.html"
  ∧ ∀ num_pages w,
      ∃ asked,
        asked `prefix_of` py_range 1 (num_pages + 1)
        ∧ Forall (fun n => 1 ≤ n ≤ num_pages) asked
        ∧ requests (collect_book_urls num_pages w).2
          = requests w ++ (listing_url <$> asked)
        ∧ (∀ urls, (collect_book_urls num_pages w).1 = Ok urls →
                   asked = py_range 1 (num_pages + 1)).
Proof.
  assert (∀ n, page_url n = listing_url n) as Heq.
  { intros n. unfold page_url, listing_url.
    destruct (Z.eqb_spec n 1) as [->|]; reflexivity. }
  split; [exact Heq|]. split; [reflexivity|].
  intros num_pages w. unfold collect_book_urls.
  destruct (pages_loop_requests (py_range 1 (num_pages + 1)) [] w)
    as (asked & Hpre & Hreq & Hok).
  exists asked. split; [exact Hpre|]. split; [|split; [|exact Hok]].
  - apply Forall_forall. intros n Hn.
    destruct Hpre as [rest Hrest].
    assert (n ∈ py_range 1 (num_pages + 1)) as Hin
      by (rewrite Hrest; apply elem_of_app; by left).
    apply py_range_bounds in Hin. lia.
  - rewrite Hreq. f_equal. apply list_fmap_ext. intros ? n _. apply Heq.
Qed.

(** * Further properties of the listing enumerator *)

Lemma articles_loop_cons article rest book_urls :
  articles_loop (article :: rest) book_urls =
    match Bs.find (Bs.tag_is "h3") article with
    | None => Raise AttributeError
    | Some h3 =>
        match Bs.find (Bs.tag_is "a") h3 with
        | None => articles_loop rest book_urls
        | Some link_tag =>
            match Bs.attrs link_tag !! "href" with
            | None => Raise KeyError
            | Some href => articles_loop rest (book_urls ++ [full_url href])
            end
        end
    end.
Proof.
  cbn [articles_loop].
  destruct (Bs.find (Bs.tag_is "h3") article) as [h3|]; [|reflexivity].
  cbn. destruct (Bs.find (Bs.tag_is "a") h3) as [link_tag|]; [|reflexivity].
  unfold Bs.getitem. destruct (Bs.attrs link_tag !! "href"); reflexivity.
Qed.

(** The links of a page do not depend on the links collected before. *)
Lemma articles_loop_acc articles book_urls out :
  articles_loop articles book_urls = Ok out →
  ∃ links,
    out = book_urls ++ links
    ∧ (length links ≤ length articles)%nat
    ∧ Forall (fun u => ∃ href, u = full_url href) links
    ∧ ∀ acc, articles_loop articles acc = Ok (acc ++ links).
Proof.
  revert book_urls out.
  induction articles as [|a articles IH]; intros book_urls out.
  - intros [= <-]. exists []. rewrite app_nil_r. repeat split; [done | done |].
    intros acc. by rewrite app_nil_r.
  - rewrite articles_loop_cons.
    destruct (Bs.find (Bs.tag_is "h3") a) as [h3|] eqn:Hh3; [|discriminate].
    destruct (Bs.find (Bs.tag_is "a") h3) as [link_tag|] eqn:Ha.
    + destruct (Bs.attrs link_tag !! "href") as [href|] eqn:Hhref; [|discriminate].
      intros H. apply IH in H as (links & -> & Hlen & Hall & Hacc).
      exists (full_url href :: links). rewrite <- app_assoc.
      split; [done|]. split; [simpl; lia|].
      split; [constructor; [by exists href | done]|].
      intros acc. rewrite articles_loop_cons, Hh3, Ha, Hhref, Hacc.
      by rewrite <- app_assoc.
    + intros H. apply IH in H as (links & -> & Hlen & Hall & Hacc).
      exists links. split; [done|]. split; [simpl; lia|]. split; [done|].
      intros acc. by rewrite articles_loop_cons, Hh3, Ha, Hacc.
Qed.

(** X1. When every item of a page has a heading, an anchor in it and an
    [href] on it, the loop over the items raises nothing and adds one
    reference for each item, in the order of the items, after the
    references it already has. *)
Theorem one_reference_per_item articles hrefs book_urls :
  Forall2 (fun article href => article_href article = Some href) articles hrefs →
  articles_loop articles book_urls = Ok (book_urls ++ (full_url <$> hrefs))
  ∧ length (full_url <$> hrefs) = length articles.
Proof.
  intros H. split.
  - revert book_urls. induction H as [|a href articles hrefs Ha _ IH];
      intros book_urls.
    + by rewrite app_nil_r.
    + rewrite articles_loop_cons. unfold article_href in Ha.
      destruct (Bs.find (Bs.tag_is "h3") a) as [h3|]; [|discriminate].
      cbn in Ha.
      destruct (Bs.find (Bs.tag_is "a") h3) as [link_tag|]; [|discriminate].
      cbn in Ha. rewrite Ha, IH. cbn [fmap list_fmap].
      by rewrite <- app_assoc.
  - rewrite length_fmap. symmetry. by eapply Forall2_length.
Qed.

(** X2. Whatever the items are, when the loop over them returns, the
    references it had are still there, in front and in order; what it added
    is at most one reference for each item, and each one is
    [CATALOGUE_URL] followed by a link without its ["../"]. *)
Theorem items_only_append articles book_urls out :
  articles_loop articles book_urls = Ok out →
  ∃ links,
    out = book_urls ++ links
    ∧ (length links ≤ length articles)%nat
    ∧ Forall (fun u => ∃ href, u = CATALOGUE_URL +:+ Str.remove "../" href) links.
Proof.
  intros H. apply articles_loop_acc in H as (links & -> & Hlen & Hall & _).
  by exists links.
Qed.

(** X3. An item whose anchor has no [href] makes the loop raise
    [KeyError]: [link_tag["href"]] has no default. *)
Theorem anchor_without_href_raises article h3 link_tag rest book_urls :
  Bs.find (Bs.tag_is "h3") article = Some h3 →
  Bs.find (Bs.tag_is "a") h3 = Some link_tag →
  Bs.attrs link_tag !! "href" = None →
  articles_loop (article :: rest) book_urls = Raise KeyError.
Proof. intros H1 H2 H3. by rewrite articles_loop_cons, H1, H2, H3. Qed.

Lemma pages_loop_links pages book_urls w out :
  (pages_loop pages book_urls w).1 = Ok out →
  ∃ per_page,
    Forall2 (fun kn links =>
               page_links (answers w kn.1 (page_url kn.2)) = Ok links)
            (zip (seq (length (requests w)) (length pages)) pages) per_page
    ∧ out = book_urls ++ concat per_page.
Proof.
  revert book_urls w out.
  induction pages as [|n pages IH]; intros book_urls w out.
  - intros [= <-]. exists []. split; [constructor | by rewrite app_nil_r].
  - rewrite pages_loop_cons. unfold next_answer. cbn [length seq zip zip_with].
    assert (length (requests (sent (page_url n) w)) = S (length (requests w)))
      as Hlen by (cbn [sent requests]; rewrite length_app; simpl; lia).
    destruct (answers w (length (requests w)) (page_url n)) as [soup|] eqn:Ha.
    + destruct (articles_loop _ book_urls) as [urls'|e] eqn:Hloop; [|discriminate].
      intros H. apply IH in H as (pp & Hpp & ->). rewrite Hlen in Hpp.
      apply articles_loop_acc in Hloop as (links & -> & _ & _ & Hacc).
      exists (links :: pp). split.
      * constructor; [|exact Hpp]. cbn [fst snd]. rewrite Ha. apply (Hacc []).
      * cbn [concat]. by rewrite <- app_assoc.
    + intros H. apply IH in H as (pp & Hpp & ->). rewrite Hlen in Hpp.
      exists ([] :: pp). split; [|done].
      constructor; [|exact Hpp]. cbn [fst snd]. by rewrite Ha.
Qed.

(** X4. The references [collect_book_urls] returns are the links of the
    listing pages, page after page in the order of the page numbers and in
    the order of the items within a page; a page whose request failed
    gives none. *)
Theorem collected_in_page_order num_pages w urls :
  (collect_book_urls num_pages w).1 = Ok urls →
  ∃ per_page,
    Forall2 (fun kn links =>
               page_links (answers w kn.1 (page_url kn.2)) = Ok links)
            (zip (seq (length (requests w))
                      (length (py_range 1 (num_pages + 1))))
                 (py_range 1 (num_pages + 1)))
            per_page
    ∧ urls = concat per_page.
Proof. intros H. by apply pages_loop_links in H. Qed.



Lemma pages_loop_offline pages book_urls w :
  (∀ k u, answers w k u = None) →
  (pages_loop pages book_urls w).1 = Ok book_urls
  ∧ requests (pages_loop pages book_urls w).2
    = requests w ++ (page_url <$> pages).
Proof.
  intros Hdown. revert w Hdown.
  induction pages as [|n pages IH]; intros w Hdown.
  - split; [reflexivity | by rewrite app_nil_r].
  - rewrite pages_loop_cons. unfold next_answer. rewrite Hdown.
    destruct (IH (sent (page_url n) w) Hdown) as [-> ->].
    split; [reflexivity|]. cbn [sent requests]. by rewrite <- app_assoc.
Qed.


(** * Further properties of the loop of [main] *)

Lemma books_loop_asked urls acc w :
  ∃ asked,
    asked `prefix_of` urls
    ∧ requests (books_loop urls acc w).2 = requests w ++ asked
    ∧ (∀ out, (books_loop urls acc w).1 = Ok out → asked = urls).
Proof.
  revert acc w. induction urls as [|u urls IH]; intros acc w.
  - exists []. split; [done|]. split; [by rewrite app_nil_r | done].
  - rewrite books_loop_cons.
    assert (∀ acc', ∃ asked,
      asked `prefix_of` u :: urls
      ∧ requests (books_loop urls acc' (sent u w)).2 = requests w ++ asked
      ∧ (∀ out, (books_loop urls acc' (sent u w)).1 = Ok out →
                asked = u :: urls)) as Hstep.
    { intros acc'. destruct (IH acc' (sent u w)) as (asked & Hpre & Hreq & Hok).
      exists (u :: asked). split; [by apply prefix_cons|]. split.
      - rewrite Hreq. cbn [sent requests]. by rewrite <- app_assoc.
      - intros out Hout. by rewrite (Hok out Hout). }
    destruct (next_answer u w) as [soup|]; [|apply Hstep].
    destruct (parse_soup u soup) as [b|e]; [apply Hstep|].
    exists [u]. split; [apply prefix_cons, prefix_nil|].
    split; [reflexivity | discriminate].
Qed.

Lemma books_loop_sublist urls acc w out :
  (books_loop urls acc w).1 = Ok out →
  ∃ out', out = acc ++ out' ∧ (book_url <$> out') `sublist_of` urls.
Proof.
  revert acc w out. induction urls as [|u urls IH]; intros acc w out.
  - intros [= <-]. exists []. by rewrite app_nil_r.
  - rewrite books_loop_cons. destruct (next_answer u w) as [soup|].
    + destruct (parse_soup u soup) as [b|e] eqn:Hp; [|discriminate].
      intros H. apply IH in H as (out' & -> & Hsub).
      exists (b :: out'). split; [by rewrite <- app_assoc|].
      apply parse_soup_Ok in Hp as (info & Hb).
      assert (book_url b = u) as Hu by apply Hb.
      cbn [fmap list_fmap]. rewrite Hu. by apply sublist_skip.
    + intros H. apply IH in H as (out' & -> & Hsub).
      exists out'. split; [done|]. by apply sublist_cons.
Qed.

(** X8. The loop of [main] asks for each reference once, in the order of
    the list, whether the request fails or not; when an error ends the loop
    the references after the one that raised are not asked for. *)
Theorem one_request_per_reference urls w :
  ∃ asked,
    asked `prefix_of` urls
    ∧ requests (books_loop urls [] w).2 = requests w ++ asked
    ∧ (∀ out, (books_loop urls [] w).1 = Ok out → asked = urls).
Proof. apply books_loop_asked. Qed.

(** X9. The records of a run are in the order of the references: their
    [book_url]s are the list of references with some of them left out, so
    there are never more records than references. *)
Theorem records_follow_references urls w out :
  (books_loop urls [] w).1 = Ok out →
  (book_url <$> out) `sublist_of` urls ∧ (length out ≤ length urls)%nat.
Proof.
  intros H. apply books_loop_sublist in H as (out' & -> & Hsub).
  cbn [app]. split; [exact Hsub|].
  apply sublist_length in Hsub. by rewrite length_fmap in Hsub.
Qed.

Lemma books_loop_all_answered urls acc w out :
  (∀ k u, urls !! k = Some u →
          is_Some (answers w (length (requests w) + k)%nat u)) →
  (books_loop urls acc w).1 = Ok out →
  ∃ out', out = acc ++ out' ∧ book_url <$> out' = urls.
Proof.
  revert acc w out. induction urls as [|u urls IH]; intros acc w out Hall.
  - intros [= <-]. exists []. by rewrite app_nil_r.
  - rewrite books_loop_cons. unfold next_answer.
    destruct (Hall 0%nat u eq_refl) as [soup Hsoup].
    rewrite Nat.add_0_r in Hsoup. rewrite Hsoup.
    destruct (parse_soup u soup) as [b|e] eqn:Hp; [|discriminate].
    intros H. apply IH in H as (out' & -> & Hurls).
    + exists (b :: out'). split; [by rewrite <- app_assoc|].
      apply parse_soup_Ok in Hp as (info & Hb).
      assert (book_url b = u) as Hu by apply Hb.
      cbn [fmap list_fmap]. by rewrite Hu, Hurls.
    + intros k u' Hk. cbn [sent requests answers]. rewrite length_app. simpl.
      replace (length (requests w) + 1 + k)%nat
        with (length (requests w) + S k)%nat by lia.
      by apply Hall.
Qed.

(** X10. When every request of the loop is answered and the loop returns,
    there is one record for each reference, in the order of the
    references, and each record carries its reference as [book_url]. *)
Theorem one_record_per_reference urls w out :
  (∀ k u, urls !! k = Some u →
          is_Some (answers w (length (requests w) + k)%nat u)) →
  (books_loop urls [] w).1 = Ok out →
  book_url <$> out = urls ∧ length out = length urls.
Proof.
  intros Hall H.
  apply (books_loop_all_answered urls [] w out Hall) in H as (out' & -> & Hurls).
  cbn [app]. split; [exact Hurls|]. by rewrite <- Hurls, length_fmap.
Qed.

Lemma books_loop_first_raise urls :
  ∀ i u soup e acc w,
    urls !! i = Some u →
    answers w (length (requests w) + i)%nat u = Some soup →
    parse_soup u soup = Raise e →
    (∀ j v s, (j < i)%nat → urls !! j = Some v →
              answers w (length (requests w) + j)%nat v = Some s →
              ∃ b, parse_soup v s = Ok b) →
    (books_loop urls acc w).1 = Raise e
    ∧ requests (books_loop urls acc w).2 = requests w ++ take (S i) urls.
Proof.
  induction urls as [|v urls IH]; intros i u soup e acc w Hi Ha Hp Hbefore;
    [done|].
  rewrite books_loop_cons. unfold next_answer. destruct i as [|i].
  - injection Hi as ->. rewrite Nat.add_0_r in Ha. rewrite Ha, Hp.
    split; reflexivity.
  - assert (∀ acc',
      (books_loop urls acc' (sent v w)).1 = Raise e
      ∧ requests (books_loop urls acc' (sent v w)).2
        = requests w ++ take (S (S i)) (v :: urls)) as Hstep.
    { intros acc'.
      destruct (IH i u soup e acc' (sent v w)) as [Hr Hq]; try done.
      - cbn [sent requests answers]. rewrite length_app. simpl.
        by replace (length (requests w) + 1 + i)%nat
          with (length (requests w) + S i)%nat by lia.
      - intros j v' s Hj Hv' Hs. apply (Hbefore (S j) v' s); [lia | done |].
        cbn [sent requests answers] in Hs. rewrite length_app in Hs.
        simpl in Hs.
        by replace (length (requests w) + S j)%nat
          with (length (requests w) + 1 + j)%nat by lia.
      - split; [exact Hr|]. rewrite Hq. cbn [sent requests].
        by rewrite <- app_assoc. }
    destruct (answers w (length (requests w)) v) as [s|] eqn:Hs; [|apply Hstep].
    destruct (Hbefore 0%nat v s) as [b ->]; [lia | done | |apply Hstep].
    by rewrite Nat.add_0_r.
Qed.

(** X11. Nothing in [main] catches what [parse_book_page] raises: the
    first page that makes it raise ends the loop with that exception, the
    records of the pages before are not returned, and the references after
    it are not asked for. *)
Theorem first_bad_page_ends_the_run urls i u soup e w :
  urls !! i = Some u →
  answers w (length (requests w) + i)%nat u = Some soup →
  parse_soup u soup = Raise e →
  (∀ j v s, (j < i)%nat → urls !! j = Some v →
            answers w (length (requests w) + j)%nat v = Some s →
            ∃ b, parse_soup v s = Ok b) →
  (books_loop urls [] w).1 = Raise e
  ∧ requests (books_loop urls [] w).2 = requests w ++ take (S i) urls.
Proof. apply books_loop_first_raise. Qed.

(** * Further properties of [main] *)

Lemma main_eq w :
  main w =
    match collect_book_urls NUM_CATALOGUE_PAGES w with
    | (Ok book_urls, w') => books_loop book_urls [] w'
    | (Raise e, w') => (Raise e, w')
    end.
Proof. reflexivity. Qed.

(** X12. When every request fails, [main] raises nothing and collects no
    record: it asks for the ten listing pages, once each and in order, and
    for nothing else. *)
Theorem main_with_network_down w :
  (∀ k u, answers w k u = None) →
  (main w).1 = Ok []
  ∧ requests (main w).2
    = requests w ++ (listing_url <$> py_range 1 (NUM_CATALOGUE_PAGES + 1)).
Proof.
  intros Hdown. rewrite main_eq. unfold collect_book_urls.
  pose proof (pages_loop_offline (py_range 1 (NUM_CATALOGUE_PAGES + 1)) [] w Hdown)
    as [Hr Hq].
  destruct (pages_loop _ [] w) as [[urls|e] w'] eqn:E; cbn [fst snd] in *;
    [|discriminate].
  injection Hr as ->. cbn [books_loop]. split; [reflexivity|].
  cbn [snd mret M_ret]. rewrite Hq. reflexivity.
Qed.



(** * Further properties of the detail extractor *)

Lemma rows_loop_cons row rest info :
  rows_loop (row :: rest) info =
    match row_cells row with
    | Some (h, v) => rows_loop rest (<[h := v]> info)
    | None => Raise AttributeError
    end.
Proof.
  cbn [rows_loop]. unfold row_cells.
  destruct (Bs.find (Bs.tag_is "th") row) as [th|]; [|reflexivity].
  cbn. destruct (Bs.find (Bs.tag_is "td") row) as [td|]; reflexivity.
Qed.

Lemma rows_loop_untouched rows (info info' : gmap str str) h :
  rows_loop rows info = Ok info' → no_header h rows → info' !! h = info !! h.
Proof.
  revert info. induction rows as [|row rows IH]; intros info.
  - by intros [= <-].
  - rewrite rows_loop_cons. destruct (row_cells row) as [[h0 v0]|] eqn:Hc;
      [|discriminate].
    intros H Hno. apply Forall_cons in Hno as [Hrow Hno].
    rewrite (IH _ H Hno). apply lookup_insert_ne. intros ->.
    by apply (Hrow v0).
Qed.

Lemma rows_loop_last rows (info info' : gmap str str) pre row post h v :
  rows_loop rows info = Ok info' →
  rows = pre ++ row :: post → row_cells row = Some (h, v) → no_header h post →
  info' !! h = Some v.
Proof.
  intros H -> Hc Hno. revert info H.
  induction pre as [|r pre IH]; intros info; cbn [app]; rewrite rows_loop_cons.
  - rewrite Hc. intros H. rewrite (rows_loop_untouched _ _ _ h H Hno).
    apply lookup_insert_eq.
  - destruct (row_cells r) as [[h0 v0]|]; [|discriminate]. apply IH.
Qed.

Lemma rows_loop_raises rows (info : gmap str str) e :
  rows_loop rows info = Raise e → e = AttributeError.
Proof.
  revert info. induction rows as [|row rows IH]; intros info; [discriminate|].
  rewrite rows_loop_cons. destruct (row_cells row) as [[h v]|].
  - apply IH.
  - by intros [= <-].
Qed.

(** X14. The table is read as a dictionary: the value of a header is the
    value of the last row that has this header, and a header that no row
    has is not a key. *)
Theorem table_last_row_wins soup table info :
  Bs.find (Bs.tag_class "table" "table-striped") soup = Some table →
  parse_info soup = Ok info →
  (∀ pre row post h v,
     Bs.find_all (Bs.tag_is "tr") table = pre ++ row :: post →
     row_cells row = Some (h, v) → no_header h post →
     info !! h = Some v)
  ∧ (∀ h, no_header h (Bs.find_all (Bs.tag_is "tr") table) → info !! h = None).
Proof.
  unfold parse_info. intros -> H. split.
  - intros pre row post h v Hrows Hc Hno.
    by apply (rows_loop_last _ _ _ _ _ _ _ _ H Hrows Hc Hno).
  - intros h Hno. by rewrite (rows_loop_untouched _ _ _ h H Hno).
Qed.

(** X15. A page without the table raises nothing in the blocks that read
    the table: the identifiers are empty, the three prices and the price
    are 0, the availability is ["Out of stock"] and the two counts are 0;
    the rest of the record comes from the other blocks. *)
Theorem page_without_table url soup t :
  Bs.find (Bs.tag_class "table" "table-striped") soup = None →
  parse_title soup = Ok t →
  parse_soup url soup
  = Ok {| title := t; category := parse_category soup;
          rating := parse_rating soup;
          price := 0%Q; price_excl_tax := 0%Q; price_incl_tax := 0%Q;
          tax := 0%Q; availability := "Out of stock";
          num_available := 0; num_reviews := 0; upc := ""; product_type := "";
          description := parse_description soup; book_url := url |}.
Proof.
  intros Htable Ht. unfold parse_soup, parse_info. rewrite Ht, Htable.
  cbn [mbind result_bind]. rewrite !lookup_empty. reflexivity.
Qed.

Lemma parse_title_raises soup e : parse_title soup = Raise e → e = AttributeError.
Proof.
  unfold parse_title.
  destruct (Bs.find (Bs.tag_class "div" "product_main") soup) as [t|];
    [|discriminate].
  destruct (Bs.find (Bs.tag_is "h1") t); [discriminate|]. by intros [= <-].
Qed.

Lemma float_raises s e : Py.float s = Raise e → e = ValueError.
Proof.
  unfold Py.float. destruct (Py.split_dot s) as [[a b]|];
    match goal with |- (if ?c then _ else _) = _ → _ => destruct c end;
    (discriminate || by intros [= <-]).
Qed.

Lemma parse_price_raises raw e : parse_price raw = Raise e → e = ValueError.
Proof.
  unfold parse_price. destruct (Re.search re_price raw); [|discriminate].
  apply float_raises.
Qed.

Lemma int_raises v e : Py.int v = Raise e → e = ValueError.
Proof.
  unfold Py.int.
  match goal with
  | |- context [let '(_, _) := ?p in _] => destruct p as [neg body]
  end.
  destruct (Py.int_digits false 0 0 body) as [[m count]|];
    [|by intros [= <-]].
  destruct (Py.max_str_digits <? count)%nat; [by intros [= <-] | discriminate].
Qed.

(** X16. What [parse_book_page] raises on a page it was given comes from
    five places only: an [AttributeError] from the block of the title or
    from a row of the table; a [ValueError] from one of the three prices,
    from a count of the availability with more digits than [int] reads,
    or from the number of reviews.  The category, the rating, the
    availability and the description raise nothing, and no [KeyError]
    comes out. *)
Theorem detail_exceptions url soup e :
  parse_soup url soup = Raise e →
  (e = AttributeError
   ∧ (parse_title soup = Raise AttributeError
      ∨ parse_info soup = Raise AttributeError))
  ∨ (e = ValueError
     ∧ ∃ info, parse_info soup = Ok info
         ∧ (parse_price (default "0" (info !! "Price (excl. tax)"))
              = Raise ValueError
            ∨ parse_price (default "0" (info !! "Price (incl. tax)"))
              = Raise ValueError
            ∨ parse_price (default "0" (info !! "Tax")) = Raise ValueError
            ∨ (∃ pre ds post,
                 count_at (default "" (info !! "Availability")) pre ds post
                 ∧ (Py.max_str_digits < Str.length ds)%nat)
            ∨ ∃ v, info !! "Number of reviews" = Some v
                   ∧ Py.int v = Raise ValueError)).
Proof.
  unfold parse_soup.
  destruct (parse_title soup) as [t|e0] eqn:Ht.
  2:{ intros [= <-]. pose proof (parse_title_raises _ _ Ht) as ->.
      left. split; [done | by left]. }
  cbn [mbind result_bind].
  destruct (parse_info soup) as [info|e0] eqn:Hinfo.
  2:{ intros [= <-]. left.
      assert (e0 = AttributeError) as ->; [|split; [done | by right]].
      unfold parse_info in Hinfo.
      destruct (Bs.find (Bs.tag_class "table" "table-striped") soup);
        [by apply rows_loop_raises in Hinfo | discriminate]. }
  cbn [mbind result_bind]. intros H. right.
  destruct (parse_price (default "0" (info !! "Price (excl. tax)")))
    as [pe|e0] eqn:Hpe.
  2:{ injection H as <-. pose proof (parse_price_raises _ _ Hpe) as ->.
      split; [done|]. exists info. split; [done | by left]. }
  cbn [mbind result_bind] in H.
  destruct (parse_price (default "0" (info !! "Price (incl. tax)")))
    as [pi|e0] eqn:Hpi.
  2:{ injection H as <-. pose proof (parse_price_raises _ _ Hpi) as ->.
      split; [done|]. exists info. split; [done | by right; left]. }
  cbn [mbind result_bind] in H.
  destruct (parse_price (default "0" (info !! "Tax"))) as [tx|e0] eqn:Htx.
  2:{ injection H as <-. pose proof (parse_price_raises _ _ Htx) as ->.
      split; [done|]. exists info. split; [done | by right; right; left]. }
  cbn [mbind result_bind] in H.
  destruct (count_outcome (default "" (info !! "Availability")))
    as [(n & Hn)|(Hn & Hlong)].
  2:{ rewrite Hn in H. injection H as <-. split; [done|]. exists info.
      split; [done|]. by right; right; right; left. }
  rewrite Hn in H. cbn [mbind result_bind] in H.
  destruct (info !! "Number of reviews") as [v|] eqn:Hv; [|discriminate].
  destruct (Py.int v) as [nr|e0] eqn:Hint; [discriminate|].
  injection H as <-. pose proof (int_raises _ _ Hint) as ->.
  split; [done|]. exists info. split; [done|]. right; right; right; right.
  by exists v.
Qed.

Lemma decimal_nonneg a b : (0 <= Py.decimal a b)%Q.
Proof.
  unfold Py.decimal. rewrite Qred_correct. unfold Qle. cbn [Qnum Qden]. lia.
Qed.

Lemma parse_price_nonneg raw q : parse_price raw = Ok q → (0 <= q)%Q.
Proof.
  unfold parse_price. destruct (Re.search re_price raw) as [m|].
  - unfold Py.float. destruct (Py.split_dot (Re.group0 m)) as [[a b]|];
      match goal with |- (if ?c then _ else _) = _ → _ => destruct c end;
      try discriminate; intros [= <-]; apply decimal_nonneg.
  - intros [= <-]. apply Qle_refl.
Qed.

(** X17. No price of a record is negative, whatever the table says: the
    pattern of the prices has no sign in it, so a minus sign before the
    digits is not read. *)
Theorem prices_nonnegative url soup b :
  parse_soup url soup = Ok b →
  (0 <= price b)%Q ∧ (0 <= price_excl_tax b)%Q
  ∧ (0 <= price_incl_tax b)%Q ∧ (0 <= tax b)%Q.
Proof.
  intros H. apply parse_soup_Ok in H
    as (info & _ & _ & _ & _ & _ & _ & Hpe & Hpi & Htx & Hp & _).
  rewrite Hp.
  repeat split; eapply parse_price_nonneg; eassumption.
Qed.

Lemma any_app p s t : Str.any p (s +:+ t) = Str.any p s || Str.any p t.
Proof.
  induction s as [|c s IH]; simpl; [reflexivity|].
  by rewrite IH, orb_assoc.
Qed.

Lemma count_dots_app s t :
  count_dots (s +:+ t) = (count_dots s + count_dots t)%nat.
Proof. induction s as [|c s IH]; simpl; [reflexivity | rewrite IH; lia]. Qed.

Lemma price_chars_digits s :
  Str.all price_char s = true →
  (Str.all Str.is_digit s = true ↔ count_dots s = 0%nat).
Proof.
  induction s as [|c s IH]; simpl; [done|].
  intros [Hc Hs]%andb_true_iff. specialize (IH Hs). unfold price_char in Hc.
  destruct (Str.is_digit c) eqn:Hd.
  - rewrite (digit_not_dot c Hd). simpl. exact IH.
  - simpl in Hc. rewrite Hc. simpl. split; [discriminate | lia].
Qed.

Lemma digits_any s :
  Str.all Str.is_digit s = true →
  Str.any Str.is_digit s = negb (Str.is_empty s).
Proof.
  destruct s as [|c s]; simpl; [done|]. by intros [-> _]%andb_true_iff.
Qed.

Lemma split_dot_None s : Py.split_dot s = None → count_dots s = 0%nat.
Proof.
  induction s as [|c s IH]; simpl; [done|].
  destruct ((c =? c_dot)%N); [discriminate|].
  destruct (Py.split_dot s) as [[a b]|]; [discriminate|]. intros _. by apply IH.
Qed.

Lemma split_dot_Some s a b :
  Py.split_dot s = Some (a, b) →
  s = a +:+ SChar c_dot b ∧ count_dots a = 0%nat.
Proof.
  revert a. induction s as [|c s IH]; intros a; simpl; [discriminate|].
  destruct (N.eqb_spec c c_dot) as [->|Hne].
  - by intros [= <- <-].
  - destruct (Py.split_dot s) as [[a' b']|]; [|discriminate].
    intros [= <- <-]. destruct (IH a' eq_refl) as [-> Ha]. split; [done|].
    simpl. by destruct (N.eqb_spec c c_dot).
Qed.

Lemma float_ok_iff s :
  Str.all price_char s = true →
  (∃ q, Py.float s = Ok q)
  ↔ (count_dots s ≤ 1)%nat ∧ Str.any Str.is_digit s = true.
Proof.
  intros Hall. unfold Py.float.
  destruct (Py.split_dot s) as [[a b]|] eqn:E.
  - apply split_dot_Some in E as [-> Ha].
    rewrite all_app in Hall. apply andb_true_iff in Hall as [Hpa Hpb].
    simpl in Hpb.
    assert (Str.all Str.is_digit a = true) as Hda
      by (by apply price_chars_digits).
    rewrite Hda, count_dots_app, any_app, Ha. simpl.
    destruct (Str.all Str.is_digit b) eqn:Hdb.
    + assert (count_dots b = 0%nat) as -> by (by apply price_chars_digits).
      assert (Str.any Str.is_digit (a +:+ b) = negb (Str.is_empty (a +:+ b)))
        as Hany by (apply digits_any; by rewrite all_app, Hda, Hdb).
      rewrite any_app in Hany. rewrite Hany.
      destruct (Str.is_empty (a +:+ b)); simpl; split.
      * by intros [q ?].
      * by intros [_ ?].
      * intros _. split; [lia | done].
      * intros _. by eexists.
    + simpl. split; [by intros [q ?]|]. intros [Hle _].
      assert (count_dots b = 0%nat) as Hb by lia.
      apply price_chars_digits in Hb; [congruence | done].
  - apply split_dot_None in E. rewrite E.
    assert (Str.all Str.is_digit s = true) as Hd
      by (by apply price_chars_digits).
    rewrite Hd, (digits_any s Hd). simpl.
    destruct (Str.is_empty s); simpl; split.
    + by intros [q ?].
    + by intros [_ ?].
    + intros _. split; [lia | done].
    + intros _. by eexists.
Qed.

(** X18. [parse_price] returns a number exactly when the first run of
    digits and dots of the raw value has at most one dot and at least one
    digit; with two dots or more, or with dots only, it raises
    [ValueError]. *)
Theorem parse_price_returns_iff raw m :
  Re.search re_price raw = Some m →
  ((∃ q, parse_price raw = Ok q)
   ↔ (count_dots (Re.group0 m) ≤ 1)%nat
     ∧ Str.any Str.is_digit (Re.group0 m) = true)
  ∧ ((∀ q, parse_price raw ≠ Ok q) → parse_price raw = Raise ValueError).
Proof.
  intros Hs. pose proof (search_price_chars raw m Hs) as [_ Hall].
  unfold parse_price. rewrite Hs. split; [by apply float_ok_iff|].
  intros Hno. destruct (Py.float (Re.group0 m)) as [q|e] eqn:E.
  - by destruct (Hno q).
  - by rewrite (float_raises _ _ E).
Qed.

(** X21. The words of the rating: the first class token of the marker
    that is not [star-rating] gives the rating, 1 to 5 for [One] to
    [Five] and 0 for any other word, whatever tokens follow it; a marker
    with no other token gives 0. *)
Theorem rating_of_first_token url soup b star_tag :
  parse_soup url soup = Ok b →
  Bs.find (Bs.tag_class "p" "star-rating") soup = Some star_tag →
  (List.filter (fun c => negb (Str.eqb c "star-rating"))
               (Bs.classes star_tag) = [] → rating b = 0)
  ∧ ∀ c rest,
      List.filter (fun c => negb (Str.eqb c "star-rating"))
                  (Bs.classes star_tag) = c :: rest →
      (c = "One" → rating b = 1) ∧ (c = "Two" → rating b = 2)
      ∧ (c = "Three" → rating b = 3) ∧ (c = "Four" → rating b = 4)
      ∧ (c = "Five" → rating b = 5)
      ∧ (c ∉ ["One"; "Two"; "Three"; "Four"; "Five"] → rating b = 0).
Proof.
  intros H Hstar. apply parse_soup_Ok in H as (info & _ & _ & _ & -> & _).
  unfold parse_rating. rewrite Hstar. split; [by intros ->|].
  intros c rest ->.
  repeat split; try (intros ->; reflexivity).
  intros Hc. unfold RATING_MAP.
  rewrite !lookup_insert_ne, lookup_empty; [done | ..];
    intros <-; apply Hc; set_solver.
Qed.

(** ** The text of a tag has no whitespace around it *)

Lemma lstrip_starts s : starts Str.is_space (Str.lstrip s) = false.
Proof.
  unfold Str.lstrip. induction s as [|c s IH]; simpl; [reflexivity|].
  destruct (Str.is_space c) eqn:E; [exact IH | exact E].
Qed.

Lemma lstrip_id s : starts Str.is_space s = false → Str.lstrip s = s.
Proof. apply lstrip_by_id. Qed.

Lemma rstrip_ends s : ends Str.is_space (Str.rstrip s) = false.
Proof.
  unfold Str.rstrip. induction s as [|c s IH]; simpl; [reflexivity|].
  destruct (Str.rstrip_by Str.is_space s) as [|c' r] eqn:E; simpl.
  - rewrite andb_true_r. destruct (Str.is_space c) eqn:Hc; [reflexivity|].
    simpl. exact Hc.
  - rewrite andb_false_r. exact IH.
Qed.

Lemma rstrip_id s : ends Str.is_space s = false → Str.rstrip s = s.
Proof.
  unfold Str.rstrip. induction s as [|c s IH]; [done|].
  cbn [ends Str.rstrip_by]. destruct s as [|c' s].
  - simpl. by intros ->.
  - intros H0. rewrite (IH H0). simpl. by rewrite andb_false_r.
Qed.

Lemma rstrip_starts s :
  starts Str.is_space s = false → starts Str.is_space (Str.rstrip s) = false.
Proof.
  unfold Str.rstrip.
  destruct s as [|c s]; simpl; [done|]. intros Hc. rewrite Hc. simpl. exact Hc.
Qed.

Lemma strip_trimmed s : trimmed (Str.strip s).
Proof.
  unfold Str.strip. split; [|apply rstrip_ends].
  apply rstrip_starts, lstrip_starts.
Qed.

Lemma trimmed_strip s : trimmed s → Str.strip s = s.
Proof.
  intros [Hs He]. unfold Str.strip. rewrite (lstrip_id s Hs).
  by apply rstrip_id.
Qed.

Lemma starts_app p s t : s ≠ "" → starts p (s +:+ t) = starts p s.
Proof. by destruct s. Qed.

Lemma ends_app p s t : t ≠ "" → ends p (s +:+ t) = ends p t.
Proof.
  intros Ht. induction s as [|c s IH]; [reflexivity|].
  cbn [Str.app ends]. rewrite <- IH.
  destruct (s +:+ t) eqn:E; [|reflexivity].
  destruct s; [by destruct t | discriminate].
Qed.

Lemma concat_trimmed l :
  Forall (fun piece => piece ≠ "" ∧ trimmed piece) l → trimmed (Str.concat l).
Proof.
  induction 1 as [|piece l [Hne [Hs He]] _ [IHs IHe]]; [done|].
  cbn [Str.concat]. split.
  - by rewrite starts_app.
  - destruct (Str.concat l) as [|c r] eqn:E.
    + by rewrite app_empty_r.
    + by rewrite ends_app.
Qed.

Lemma pieces_trimmed texts :
  Forall (fun piece => piece ≠ "" ∧ trimmed piece)
         (List.filter (fun s => negb (Str.is_empty s)) (Str.strip <$> texts)).
Proof.
  induction texts as [|t texts IH]; [constructor|].
  cbn [fmap list_fmap List.filter].
  destruct (Str.strip t) as [|c r] eqn:E; [exact IH|].
  cbn [Str.is_empty negb]. constructor; [|exact IH].
  split; [done|]. rewrite <- E. apply strip_trimmed.
Qed.

Lemma get_text_trimmed n : Str.strip (Bs.get_text n) = Bs.get_text n.
Proof. apply trimmed_strip, concat_trimmed, pieces_trimmed. Qed.

Lemma rows_loop_values rows (info info' : gmap str str) :
  rows_loop rows info = Ok info' →
  map_Forall (fun _ v => Str.strip v = v) info →
  map_Forall (fun _ v => Str.strip v = v) info'.
Proof.
  revert info. induction rows as [|row rows IH]; intros info.
  - by intros [= <-].
  - rewrite rows_loop_cons. unfold row_cells.
    destruct (Bs.find (Bs.tag_is "th") row) as [th|]; [|discriminate].
    destruct (Bs.find (Bs.tag_is "td") row) as [td|]; [|discriminate].
    cbn. intros H Hinfo. apply (IH _ H).
    apply map_Forall_insert_2; [apply get_text_trimmed | exact Hinfo].
Qed.

(** X22. The texts of a record have no whitespace around them: the title,
    the category, the description, the identifier and the product type
    are what [strip] would leave of them. *)
Theorem texts_are_stripped url soup b :
  parse_soup url soup = Ok b →
  Forall (fun s => Str.strip s = s)
         [title b; category b; description b; upc b; product_type b].
Proof.
  intros H. apply parse_soup_Ok in H
    as (info & Hinfo & Ht & Hc & _ & Hu & Hp & _ & _ & _ & _ & _ & _ & _ & Hd & _).
  assert (map_Forall (fun _ v => Str.strip v = v) info) as Hvals.
  { unfold parse_info in Hinfo.
    destruct (Bs.find (Bs.tag_class "table" "table-striped") soup).
    - apply (rows_loop_values _ _ _ Hinfo). apply map_Forall_empty.
    - injection Hinfo as <-. apply map_Forall_empty. }
  assert (∀ k, Str.strip (default "" (info !! k)) = default "" (info !! k))
    as Hdef.
  { intros k. destruct (info !! k) as [v|] eqn:E; [|reflexivity].
    apply (Hvals k v E). }
  repeat constructor.
  - unfold parse_title in Ht.
    destruct (Bs.find (Bs.tag_class "div" "product_main") soup) as [t|].
    + destruct (Bs.find (Bs.tag_is "h1") t) as [h1|]; [|discriminate].
      injection Ht as <-. apply get_text_trimmed.
    + by injection Ht as <-.
  - rewrite Hc. unfold parse_category.
    destruct (Bs.find (Bs.tag_class "ul" "breadcrumb") soup) as [bc|];
      [|reflexivity].
    destruct (Bs.find_all (Bs.tag_is "li") bc !! 2%nat);
      [apply get_text_trimmed | reflexivity].
  - rewrite Hd. unfold parse_description.
    destruct (Bs.find (Bs.tag_class "article" "product_page") soup) as [d|];
      [|reflexivity].
    destruct (Bs.find_loc (Bs.tag_id "div" "product_description") d)
      as [[p_tag following]|]; [|reflexivity].
    destruct (Bs.find_next_sibling "p" following);
      [apply get_text_trimmed | reflexivity].
  - rewrite Hu. apply Hdef.
  - rewrite Hp. apply Hdef.
Qed.

(** X24. When a record is returned and the table gives a run of decimal
    digits as the number of reviews, [num_reviews] is the number these
    digits denote, and the run has no more digits than [int] reads: a
    longer one makes [int] raise, and no record is returned. *)
Theorem reviews_of_digits url soup b :
  parse_soup url soup = Ok b →
  ∃ info, parse_info soup = Ok info
    ∧ ∀ v, info !! "Number of reviews" = Some v →
           v ≠ "" → Str.all Str.is_digit v = true →
           num_reviews b = Z.of_N (Str.digits v)
           ∧ (Str.length v ≤ Py.max_str_digits)%nat.
Proof.
  intros H0. apply parse_soup_Ok in H0
    as (info & Hinfo & _ & _ & _ & _ & _ & _ & _ & _ & _ & _ & _ & Hrev & _).
  exists info. split; [exact Hinfo|]. intros v Hv Hne Hall.
  rewrite Hv, (int_of_digits v Hne Hall) in Hrev.
  destruct (Py.max_str_digits <? Str.length v)%nat eqn:El; [discriminate|].
  apply Nat.ltb_ge in El. by injection Hrev as <-.
Qed.

(** X25. One call of [parse_book_page] makes one request, for its
    reference, whatever comes of it; it returns [None] exactly when that
    request fails; and a record it returns was read from the page the
    request got and carries the reference as [book_url]. *)
Theorem parse_book_page_outcome url w :
  requests (parse_book_page url w).2 = requests w ++ [url]
  ∧ ((parse_book_page url w).1 = Ok None ↔ next_answer url w = None)
  ∧ ∀ b, (parse_book_page url w).1 = Ok (Some b) →
         book_url b = url
         ∧ ∃ soup, next_answer url w = Some soup ∧ parse_soup url soup = Ok b.
Proof.
  rewrite parse_book_page_eq. cbn [fst snd sent requests].
  split; [reflexivity|].
  destruct (next_answer url w) as [soup|]; [|by split; [|discriminate]].
  destruct (parse_soup url soup) as [b'|e] eqn:E.
  - split; [split; discriminate|]. intros b [= <-]. split; [|by exists soup].
    apply parse_soup_Ok in E as (info & Hb). apply Hb.
  - split; [split; discriminate | discriminate].
Qed.
End Properties.

(** * The properties on pages

    The examples and the witnesses are computed with the table
    [unicode_sample]. *)

#[local] Existing Instance unicode_sample.

(** ** The detail extractor: prices, rating, availability, counts *)

Example parse_sample_page url :
  parse_soup url sample_page = Ok (sample_book url).
Proof. vm_compute. reflexivity. Qed.

Lemma price_is_price_incl_tax_witness :
  (parse_book_page "u" (serve sample_page)).1 = Ok (Some (sample_book "u"))
  ∧ price (sample_book "u") = price_incl_tax (sample_book "u").
Proof.
  assert (H : (parse_book_page "u" (serve sample_page)).1
              = Ok (Some (sample_book "u"))) by (vm_compute; reflexivity).
  split; [exact H|].
  exact (price_is_price_incl_tax "u" (serve sample_page) (sample_book "u") H).
Defined.




(** With 4300 digits the count is read. *)
Example count_of_4300_digits :
  ∃ b, parse_soup "u" (one_row_page "Availability"
                         ("(" +:+ ones 4300 +:+ " available)")) = Ok b
       ∧ num_available b = Z.of_N (Str.digits (ones 4300)).
Proof. eexists. split; vm_compute; reflexivity. Qed.

(** The digits of the count need not be ASCII: [\d] and [int] take every
    decimal digit, here the Arabic-Indic 3 and 4. *)
Example count_in_arabic_indic_digits :
  ∃ b, parse_soup "u" (one_row_page "Availability" "In stock (٣٤ available)")
       = Ok b
       ∧ availability b = "In stock" ∧ num_available b = 34.
Proof. eexists. split; [|split]; vm_compute; reflexivity. Qed.

(** So is the price: [float] reads the Arabic-Indic 3 after the dot. *)
Example price_in_arabic_indic_digits : parse_price ".٣" = Ok (3 # 10)%Q.
Proof. vm_compute. reflexivity. Qed.

Example price_of_one_arabic_indic_digit : parse_price "٣" = Ok 3%Q.
Proof. vm_compute. reflexivity. Qed.

(** [get_text] strips the no-break space as well. *)
Example get_text_strips_no_break_space :
  Bs.get_text (tag "td" [Text (SChar 160%N " 12 ")]) = "12".
Proof. vm_compute. reflexivity. Qed.

(** C9, as stated, fails: a page whose table says that the number of
    reviews is [-3] gives a record with [num_reviews = -3]. *)
Lemma negative_reviews_counterexample :
  ∃ b, parse_soup "u" (one_row_page "Number of reviews" "-3") = Ok b
       ∧ ¬ (0 ≤ num_available b ∧ 0 ≤ num_reviews b).
Proof.
  exists {| title := ""; category := ""; rating := 0;
            price := 0%Q; price_excl_tax := 0%Q; price_incl_tax := 0%Q;
            tax := 0%Q; availability := "Out of stock"; num_available := 0;
            num_reviews := -3; upc := ""; product_type := "";
            description := ""; book_url := "u" |}.
  split; [vm_compute; reflexivity|]. simpl. lia.
Qed.

Lemma counts_nonnegative_witness :
  parse_soup "u" sample_page = Ok (sample_book "u")
  ∧ 0 ≤ num_available (sample_book "u")
  ∧ 0 ≤ num_reviews (sample_book "u").
Proof.
  split; [apply parse_sample_page|].
  destruct (counts_nonnegative "u" sample_page (sample_book "u")
              (parse_sample_page "u")) as (info & Hinfo & Hav & _ & Hrev).
  split; [exact Hav|]. apply (Hrev "0").
  - vm_compute in Hinfo. injection Hinfo as <-. vm_compute. reflexivity.
  - vm_compute. reflexivity.
Defined.

Lemma missing_heading_raises_witness :
  (parse_book_page "u"
     (serve (tag "[document]" [tagc "div" "product_main" []]))).1
  = Raise AttributeError.
Proof.
  apply (missing_heading_raises "u" _
           (tag "[document]" [tagc "div" "product_main" []])
           (tagc "div" "product_main" []));
    vm_compute; reflexivity.
Defined.

(** The other places where a page with all its outer blocks makes the
    extractor raise: a row without a cell, a number of reviews that is no
    integer literal, a price whose run of digits and dots is no number. *)
Example row_without_cell_raises :
  parse_soup "u"
    (tag "[document]"
       [tagc "table" "table-striped" [tag "tr" [tag "th" [Text "UPC"]]]])
  = Raise AttributeError.
Proof. vm_compute. reflexivity. Qed.

Example reviews_not_a_number_raises :
  parse_soup "u" (one_row_page "Number of reviews" "none yet")
  = Raise ValueError.
Proof. vm_compute. reflexivity. Qed.

Example price_with_two_dots_raises :
  parse_soup "u" (one_row_page "Tax" "£1.2.3") = Raise ValueError.
Proof. vm_compute. reflexivity. Qed.

(** A page with none of the blocks gets every default. *)
Example parse_empty_page url :
  parse_soup url (tag "[document]" []) = Ok (empty_book url).
Proof. vm_compute. reflexivity. Qed.

(** A price of the site. *)
Example parse_price_pound : parse_price "£51.77" = Ok (5177 # 100)%Q.
Proof. vm_compute. reflexivity. Qed.

Lemma article_without_heading_raises_witness :
  articles_loop
    [tagc "article" "product_pod" []; link_article "a_1/index.html"] []
  = Raise AttributeError.
Proof.
  apply (article_without_heading_raises (tagc "article" "product_pod" [])).
  vm_compute. reflexivity.
Defined.

(** The error leaves [collect_book_urls]: nothing catches it. *)
Example listing_with_bare_item_raises :
  (collect_book_urls 1
     (serve (tag "[document]"
        [link_article "a_1/index.html"; tagc "article" "product_pod" []]))).1
  = Raise AttributeError.
Proof. vm_compute. reflexivity. Qed.

(** C8, as stated, fails: in the link [a/../b] the segment that is not
    leading is removed as well. *)
Lemma resolve_counterexample :
  articles_loop [link_article "a/../b"] [] = Ok [CATALOGUE_URL +:+ "a/b"]
  ∧ CATALOGUE_URL +:+ "a/b"
    ≠ CATALOGUE_URL +:+ strip_leading_dotdot "a/../b".
Proof. split; [vm_compute; reflexivity | vm_compute; discriminate]. Qed.

Lemma resolve_link_witness :
  articles_loop [link_article "../../a_1/index.html"] []
  = Ok ["https://books.toscrape.com/catalogue/a_1/index.html"].
Proof.
  destruct (resolve_link (link_article "../../a_1/index.html")
              (tag "h3" [Elem "a" [] {["href" := "../../a_1/index.html"]}
                           [Text "A Light in the Attic"]])
              (Elem "a" [] {["href" := "../../a_1/index.html"]}
                 [Text "A Light in the Attic"])
              "../../a_1/index.html" [] [])
    as [Hloop Hstrip]; [vm_compute; reflexivity ..|].
  rewrite Hloop, Hstrip; vm_compute; reflexivity.
Defined.

Lemma failed_fetch_drops_one_record_witness :
  (books_loop ["a"; "b"] [] (serve sample_page)).1
  = Ok [sample_book "a"; sample_book "b"]
  ∧ (books_loop ["a"; "b"] [] (serve_but 1 sample_page)).1
    = Ok [sample_book "a"].
Proof.
  assert ((books_loop ["a"; "b"] [] (serve sample_page)).1
          = Ok [sample_book "a"; sample_book "b"]) as Hrun
    by (vm_compute; reflexivity).
  split; [exact Hrun|].
  destruct (failed_fetch_drops_one_record ["a"; "b"] 1 "b"
              (serve sample_page) (serve_but 1 sample_page)
              [sample_book "a"; sample_book "b"])
    as (_ & out1 & r & out2 & Hout & Hlen & _ & Hrun' & _).
  - reflexivity.
  - reflexivity.
  - intros k u Hk. simpl in *. destruct (Nat.eqb_spec k 1); [lia | done].
  - reflexivity.
  - intros k u _. simpl. by eexists.
  - exact Hrun.
  - destruct out1 as [|x [|y out1]]; try discriminate.
    simpl in Hout. injection Hout as <- <- <-. exact Hrun'.
Defined.

Lemma one_reference_per_item_witness :
  articles_loop [link_article "a_1/index.html"; link_article "b_2/index.html"]
    ["x"]
  = Ok ["x"; full_url "a_1/index.html"; full_url "b_2/index.html"].
Proof.
  apply (one_reference_per_item
           [link_article "a_1/index.html"; link_article "b_2/index.html"]
           ["a_1/index.html"; "b_2/index.html"] ["x"]).
  repeat constructor.
Defined.

Lemma items_only_append_witness :
  ∃ links,
    ["x"; full_url "a_1/index.html"] = ["x"] ++ links
    ∧ (length links ≤ 2)%nat
    ∧ Forall (fun u => ∃ href, u = CATALOGUE_URL +:+ Str.remove "../" href) links.
Proof.
  apply (items_only_append
           [link_article "a_1/index.html";
            tagc "article" "product_pod" [tag "h3" [Text "no link"]]]
           ["x"] ["x"; full_url "a_1/index.html"]).
  vm_compute. reflexivity.
Defined.

Lemma anchor_without_href_raises_witness :
  articles_loop
    [tagc "article" "product_pod" [tag "h3" [tag "a" [Text "A Light"]]];
     link_article "b_2/index.html"] []
  = Raise KeyError.
Proof.
  apply (anchor_without_href_raises _
           (tag "h3" [tag "a" [Text "A Light"]]) (tag "a" [Text "A Light"]));
    vm_compute; reflexivity.
Defined.

Lemma collected_in_page_order_witness :
  (collect_book_urls 2 (serve (listing_page ["a_1/index.html"]))).1
  = Ok [full_url "a_1/index.html"; full_url "a_1/index.html"]
  ∧ ∃ per_page : list (list str),
      length per_page = 2%nat
      ∧ [full_url "a_1/index.html"; full_url "a_1/index.html"] = concat per_page.
Proof.
  assert ((collect_book_urls 2 (serve (listing_page ["a_1/index.html"]))).1
          = Ok [full_url "a_1/index.html"; full_url "a_1/index.html"]) as Hrun
    by (vm_compute; reflexivity).
  split; [exact Hrun|].
  destruct (collected_in_page_order 2 _ _ Hrun) as (per_page & Hpp & Hcat).
  exists per_page. split; [|exact Hcat].
  apply Forall2_length in Hpp. rewrite <- Hpp. reflexivity.
Defined.




Lemma records_follow_references_witness :
  (book_url <$> [sample_book "a"]) `sublist_of` ["a"; "b"]
  ∧ (length [sample_book "a"] ≤ length ["a"; "b"])%nat.
Proof.
  apply (records_follow_references ["a"; "b"] (serve_but 1 sample_page)).
  vm_compute. reflexivity.
Defined.

Lemma one_record_per_reference_witness :
  book_url <$> [sample_book "a"; sample_book "b"] = ["a"; "b"]
  ∧ length [sample_book "a"; sample_book "b"] = length ["a"; "b"].
Proof.
  apply (one_record_per_reference ["a"; "b"] (serve sample_page)).
  - intros k u _. simpl. by eexists.
  - vm_compute. reflexivity.
Defined.

Lemma first_bad_page_ends_the_run_witness :
  (books_loop ["a"; "b"; "c"] [] (serve_with 1 headless_page sample_page)).1
  = Raise AttributeError
  ∧ requests
      (books_loop ["a"; "b"; "c"] [] (serve_with 1 headless_page sample_page)).2
    = ["a"; "b"].
Proof.
  apply (first_bad_page_ends_the_run ["a"; "b"; "c"] 1 "b" headless_page
           AttributeError (serve_with 1 headless_page sample_page)).
  - reflexivity.
  - reflexivity.
  - vm_compute. reflexivity.
  - intros j v s Hj _ Hs. simpl in Hs.
    destruct (Nat.eqb_spec j 1) as [->|_]; [lia|].
    injection Hs as <-. exists (sample_book v). apply parse_sample_page.
Defined.

Lemma main_with_network_down_witness :
  (main offline).1 = Ok [] ∧ length (requests (main offline).2) = 10%nat.
Proof.
  destruct (main_with_network_down offline) as [Hr Hq]; [reflexivity|].
  split; [exact Hr|]. rewrite Hq. reflexivity.
Defined.


Lemma table_last_row_wins_witness :
  (<["UPC" := "new"]> (<["UPC" := "old"]> ∅) : gmap str str) !! "UPC"
  = Some "new"
  ∧ (<["UPC" := "new"]> (<["UPC" := "old"]> ∅) : gmap str str) !! "Tax"
    = None.
Proof.
  destruct (table_last_row_wins
              (tag "[document]"
                 [tagc "table" "table-striped" [row "UPC" "old"; row "UPC" "new"]])
              (tagc "table" "table-striped" [row "UPC" "old"; row "UPC" "new"])
              (<["UPC" := "new"]> (<["UPC" := "old"]> ∅)))
    as [Hlast Hnone]; [reflexivity | vm_compute; reflexivity |].
  split.
  - apply (Hlast [row "UPC" "old"] (row "UPC" "new") []);
      [reflexivity | reflexivity | constructor].
  - apply Hnone. repeat constructor; intros v; vm_compute; discriminate.
Defined.

Lemma page_without_table_witness :
  parse_soup "u" (tag "[document]" [tag "h1" [Text "A title"]])
  = Ok (empty_book "u").
Proof.
  rewrite (page_without_table "u" _ "");
    [reflexivity | reflexivity | reflexivity].
Defined.

Lemma detail_exceptions_witness :
  parse_soup "u" (one_row_page "Tax" "£1.2.3") = Raise ValueError
  ∧ ∃ info, parse_info (one_row_page "Tax" "£1.2.3") = Ok info
            ∧ parse_price (default "0" (info !! "Tax")) = Raise ValueError.
Proof.
  assert (parse_soup "u" (one_row_page "Tax" "£1.2.3") = Raise ValueError)
    as Hrun by (vm_compute; reflexivity).
  split; [exact Hrun|].
  destruct (detail_exceptions _ _ _ Hrun) as [[He _]|(_ & info & Hinfo & H)];
    [discriminate|].
  exists info. split; [exact Hinfo|].
  assert (info = <["Tax" := "£1.2.3"]> ∅) as ->.
  { assert (parse_info (one_row_page "Tax" "£1.2.3")
            = Ok (<["Tax" := "£1.2.3"]> ∅)) as E by (vm_compute; reflexivity).
    rewrite E in Hinfo. by injection Hinfo. }
  vm_compute. reflexivity.
Defined.

Lemma prices_nonnegative_witness :
  parse_soup "u" (one_row_page "Tax" "-£0.50")
  = Ok {| title := ""; category := ""; rating := 0;
          price := 0%Q; price_excl_tax := 0%Q; price_incl_tax := 0%Q;
          tax := (1 # 2)%Q; availability := "Out of stock";
          num_available := 0; num_reviews := 0; upc := ""; product_type := "";
          description := ""; book_url := "u" |}
  ∧ (0 <= 1 # 2)%Q.
Proof.
  assert (parse_soup "u" (one_row_page "Tax" "-£0.50")
          = Ok {| title := ""; category := ""; rating := 0;
                  price := 0%Q; price_excl_tax := 0%Q; price_incl_tax := 0%Q;
                  tax := (1 # 2)%Q; availability := "Out of stock";
                  num_available := 0; num_reviews := 0; upc := "";
                  product_type := ""; description := ""; book_url := "u" |})
    as Hrun by (vm_compute; reflexivity).
  split; [exact Hrun|].
  apply (prices_nonnegative _ _ _ Hrun).
Defined.

Lemma parse_price_returns_iff_witness :
  ¬ (∃ q, parse_price "£1.2.3 each" = Ok q)
  ∧ parse_price "£1.2.3 each" = Raise ValueError.
Proof.
  destruct (parse_price_returns_iff "£1.2.3 each"
              {| Re.group0 := "1.2.3"; Re.groups := [] |})
    as [Hiff Hraise]; [vm_compute; reflexivity|].
  assert (¬ (∃ q, parse_price "£1.2.3 each" = Ok q)) as Hno.
  { intros Hq. apply Hiff in Hq as [Hdots _]. simpl in Hdots. lia. }
  split; [exact Hno|]. apply Hraise. intros q Hq. apply Hno. by exists q.
Defined.

Lemma parse_price_no_run_witness : parse_price "free of charge" = Ok 0%Q.
Proof. apply parse_price_no_run. reflexivity. Defined.

Lemma article_without_anchor_skipped_witness :
  articles_loop
    [tagc "article" "product_pod" [tag "h3" [Text "no link"]];
     link_article "b_2/index.html"] ["x"]
  = Ok ["x"; full_url "b_2/index.html"].
Proof.
  rewrite (article_without_anchor_skipped
             (tagc "article" "product_pod" [tag "h3" [Text "no link"]])
             (tag "h3" [Text "no link"]));
    [vm_compute; reflexivity | reflexivity | reflexivity].
Defined.

Lemma rating_of_first_token_witness :
  parse_soup "u"
    (tag "[document]" [Elem "p" ["star-rating"; "Big"; "Four"] ∅ []])
  = Ok (empty_book "u")
  ∧ rating (empty_book "u") = 0.
Proof.
  assert (parse_soup "u"
            (tag "[document]" [Elem "p" ["star-rating"; "Big"; "Four"] ∅ []])
          = Ok (empty_book "u")) as Hrun by (vm_compute; reflexivity).
  split; [exact Hrun|].
  destruct (rating_of_first_token _ _ _
              (Elem "p" ["star-rating"; "Big"; "Four"] ∅ []) Hrun eq_refl)
    as [_ Hfirst].
  apply (Hfirst "Big" ["Four"]); [reflexivity|].
  rewrite !not_elem_of_cons. repeat split; try discriminate.
  apply not_elem_of_nil.
Defined.

Lemma texts_are_stripped_witness :
  Forall (fun s => Str.strip s = s)
         [title (sample_book "u"); category (sample_book "u");
          description (sample_book "u"); upc (sample_book "u");
          product_type (sample_book "u")].
Proof.
  apply (texts_are_stripped "u" sample_page). apply parse_sample_page.
Defined.

Lemma reviews_of_digits_witness :
  parse_soup "u" (one_row_page "Number of reviews" "017")
  = Ok {| title := ""; category := ""; rating := 0;
          price := 0%Q; price_excl_tax := 0%Q; price_incl_tax := 0%Q;
          tax := 0%Q; availability := "Out of stock";
          num_available := 0; num_reviews := 17; upc := ""; product_type := "";
          description := ""; book_url := "u" |}
  ∧ 17 = Z.of_N (Str.digits "017").
Proof.
  assert (parse_soup "u" (one_row_page "Number of reviews" "017")
          = Ok {| title := ""; category := ""; rating := 0;
                  price := 0%Q; price_excl_tax := 0%Q; price_incl_tax := 0%Q;
                  tax := 0%Q; availability := "Out of stock";
                  num_available := 0; num_reviews := 17; upc := "";
                  product_type := ""; description := ""; book_url := "u" |})
    as Hrun by (vm_compute; reflexivity).
  split; [exact Hrun|].
  destruct (reviews_of_digits _ _ _ Hrun) as (info & Hinfo & Hrev).
  assert (info = <["Number of reviews" := "017"]> ∅) as ->.
  { assert (parse_info (one_row_page "Number of reviews" "017")
            = Ok (<["Number of reviews" := "017"]> ∅)) as E
      by (vm_compute; reflexivity).
    rewrite E in Hinfo. by injection Hinfo. }
  apply (Hrev "017"); [vm_compute; reflexivity | discriminate | reflexivity].
Defined.
